(** * Causal intervention search: symbolic state, applier, reward, MCTS

    A shallow embedding of the identification package
    (state_manager.py, interventions.py, reward_shaper.py, mcts.py).

    Numbers: Python floats are idealised as exact rationals [Q]; the
    infinite scores used by the UCT rule are a separate constructor.
    Where rounding or overflow decides what the code does, the function
    is given again over binary64 floats (module [Binary64]).
    Dictionaries keyed by object name are [gmap string], sets of
    predicates are [gset string]; the intervention space keeps its
    insertion order as an association list.  Of the printed output only
    the lines of the state manager and of the applier are modelled.

    The builtins [float], [math.log] and [math.sqrt] are parameters of
    the development; the random module is a sequence of raw draws.  The
    search tree is an arena of nodes addressed by index, so that the
    [parent] back-references and the in-place updates of the source are
    kept; the two unbounded loops ([select], [backpropagate]) run on
    fuel, and the properties show that the fuel given always suffices. *)

From Stdlib Require Import QArith Qabs String Ascii List ZArith Lia Lqa.
From Stdlib Require Floats Uint63.
From stdpp Require Import gmap strings list fin_maps.

Open Scope string_scope.
Open Scope Q_scope.

(** ** Rational comparisons as booleans *)

Definition Qltb (a b : Q) : bool := negb (Qle_bool b a).

(** ** Python string primitives used by the sources *)

Module PyStr.

(** [needle in s] *)
Fixpoint contains (needle s : string) : bool :=
  String.prefix needle s ||
  match s with
  | EmptyString => false
  | String _ s' => contains needle s'
  end.

(** [s.split(sep)] for a one-character separator *)
Fixpoint split (sep : ascii) (s : string) : list string :=
  match s with
  | EmptyString => [EmptyString]
  | String c s' =>
      if Ascii.eqb c sep then EmptyString :: split sep s'
      else match split sep s' with
           | [] => [String c EmptyString]
           | f :: fs => String c f :: fs
           end
  end.

(** The ASCII characters for which [str.isspace] holds.  Strings are
    ASCII here; on other text [str.strip] also removes the Unicode white
    space (U+0085, U+00A0, ...). *)
Definition is_space (c : ascii) : bool :=
  let n := nat_of_ascii c in
  ((9 <=? n)%nat && (n <=? 13)%nat) || ((28 <=? n)%nat && (n <=? 32)%nat).

Fixpoint lstrip (s : string) : string :=
  match s with
  | EmptyString => EmptyString
  | String c s' => if is_space c then lstrip s' else s
  end.

Fixpoint rstrip (s : string) : string :=
  match s with
  | EmptyString => EmptyString
  | String c s' =>
      match rstrip s' with
      | EmptyString => if is_space c then EmptyString else String c EmptyString
      | r => String c r
      end
  end.

(** [s.strip()] *)
Definition strip (s : string) : string := rstrip (lstrip s).

Fixpoint drop (n : nat) (s : string) : string :=
  match n, s with
  | O, _ => s
  | S n', String _ s' => drop n' s'
  | S _, EmptyString => EmptyString
  end.

Fixpoint remove_last (s : string) : string :=
  match s with
  | EmptyString => EmptyString
  | String c EmptyString => EmptyString
  | String c s' => String c (remove_last s')
  end.

(** [s[3:-1]] *)
Definition slice_3_m1 (s : string) : string := remove_last (drop 3 s).

Definition comma : ascii := ","%char.

Fixpoint no_char (c : ascii) (s : string) : Prop :=
  match s with
  | EmptyString => True
  | String d s' => d <> c /\ no_char c s'
  end.

(** ASCII characters for which [str.isdigit] holds *)
Definition is_digit (c : ascii) : bool :=
  let n := nat_of_ascii c in (48 <=? n)%nat && (n <=? 57)%nat.

Fixpoint all_digits (s : string) : bool :=
  match s with
  | EmptyString => true
  | String c s' => is_digit c && all_digits s'
  end.

(** [s.isdigit()] *)
Definition isdigit (s : string) : bool :=
  match s with
  | EmptyString => false
  | String _ _ => all_digits s
  end.

End PyStr.

(** ** state_manager.py *)

(** A position [[x, y, z]]. *)
Record Position := mkPosition { pos_x : Q; pos_y : Q; pos_z : Q }.

(** The initial-state record read from JSON: its ['objects'] and
    ['relationships'] entries (absent entries are the empty ones). *)
Record InitialState := mkInitialState {
  st_objects : gmap string Position;
  st_relationships : list string
}.

Record StateManager := mkStateManager {
  objects : gmap string Position;
  initial_objects : gmap string Position;
  relationships : gset string;
  alignment_threshold : Q;
  intervened_objects : gset string
}.

Module StateManagerOps.

(** [StateManager.__init__] *)
Definition init (initial_state : InitialState) (threshold : Q) : StateManager :=
  {| objects := st_objects initial_state;
     initial_objects := st_objects initial_state;
     relationships := list_to_set (st_relationships initial_state);
     alignment_threshold := threshold;
     intervened_objects := ∅ |}.

(** The [direction_vectors] dictionary of [apply_shift]. *)
Definition direction_vectors (magnitude : Q) (direction : string)
  : option (Q * Q * Q) :=
  if String.eqb direction "left" then Some (- magnitude, 0, 0)
  else if String.eqb direction "right" then Some (magnitude, 0, 0)
  else if String.eqb direction "forward" then Some (0, magnitude, 0)
  else if String.eqb direction "back" then Some (0, - magnitude, 0)
  else None.

(** [apply_shift]: the new state, the returned flag and the lines printed. *)
Definition apply_shift (self : StateManager) (obj direction : string)
    (magnitude : Q) : StateManager * bool * list string :=
  match objects self !! obj with
  | None =>
      (self, false,
       ["[StateManager] Warning: Object '" ++ obj ++ "' not found in state"])
  | Some current_pos =>
      match direction_vectors magnitude direction with
      | None =>
          (self, false,
           ["[StateManager] Warning: Unknown direction '" ++ direction ++ "'"])
      | Some (dx, dy, dz) =>
          ({| objects :=
                <[obj := {| pos_x := pos_x current_pos + dx;
                            pos_y := pos_y current_pos + dy;
                            pos_z := pos_z current_pos + dz |}]> (objects self);
              initial_objects := initial_objects self;
              relationships := relationships self;
              alignment_threshold := alignment_threshold self;
              intervened_objects := intervened_objects self ∪ {[obj]} |},
           true, [])
      end
  end.

Definition check_alignment (self : StateManager) (obj_a obj_b : string) : bool :=
  match objects self !! obj_a, objects self !! obj_b with
  | Some pos_a, Some pos_b =>
      let x_diff := Qabs (pos_x pos_a - pos_x pos_b) in
      let y_diff := Qabs (pos_y pos_a - pos_y pos_b) in
      Qltb x_diff (alignment_threshold self)
      && Qltb y_diff (alignment_threshold self)
  | _, _ => false
  end.

Definition check_misalignment (self : StateManager) (obj reference : string)
  : bool :=
  negb (check_alignment self obj reference).

Definition _check_relationship_holds (self : StateManager)
    (relationship : string) : bool :=
  if negb (String.prefix "On(" relationship) then true
  else
    match PyStr.split PyStr.comma (PyStr.slice_3_m1 relationship) with
    | [part0; part1] =>
        let obj_a := PyStr.strip part0 in
        let obj_b := PyStr.strip part1 in
        match objects self !! obj_a, objects self !! obj_b with
        | Some _, Some _ => check_alignment self obj_a obj_b
        | _, _ => true
        end
    | _ => true
    end.

Definition get_relationships (self : StateManager) : gset string :=
  filter (fun rel => _check_relationship_holds self rel = true)
         (relationships self).

Definition get_alignment_score (self : StateManager)
    (goal_relationships : gset string) : Q :=
  let current_rels := get_relationships self in
  if (size goal_relationships =? 0)%nat then 1
  else
    let maintained := size (current_rels ∩ goal_relationships) in
    let total := size goal_relationships in
    inject_Z (Z.of_nat maintained) / inject_Z (Z.of_nat total).

Definition get_position (self : StateManager) (obj : string)
  : option Position :=
  objects self !! obj.

(** [get_state_snapshot]: the three entries of the returned dictionary. *)
Definition get_state_snapshot (self : StateManager)
  : gmap string Position * list string * list string :=
  (objects self, elements (get_relationships self),
   elements (intervened_objects self)).

Definition reset_to_initial (self : StateManager) : StateManager :=
  {| objects := initial_objects self;
     initial_objects := initial_objects self;
     relationships := relationships self;
     alignment_threshold := alignment_threshold self;
     intervened_objects := ∅ |}.

(** [compute_displacement], with [math.sqrt] as a parameter. *)
Definition compute_displacement (math_sqrt : Q -> Q) (self : StateManager)
    (obj : string) : Q :=
  match objects self !! obj, initial_objects self !! obj with
  | Some current, Some initial =>
      let dx := pos_x current - pos_x initial in
      let dy := pos_y current - pos_y initial in
      let dz := pos_z current - pos_z initial in
      math_sqrt (dx ^ 2 + dy ^ 2 + dz ^ 2)
  | _, _ => 0.0
  end.

(** The test in the loop of [get_critical_relationships]. *)
Definition is_critical (rel : string) : bool :=
  if String.prefix "On(" rel then
    match PyStr.split PyStr.comma (PyStr.slice_3_m1 rel) with
    | [part0; part1] =>
        let obj_a := PyStr.strip part0 in
        let obj_b := PyStr.strip part1 in
        PyStr.isdigit obj_a && (PyStr.isdigit obj_b || String.eqb obj_b "0")
    | _ => false
    end
  else false.

Definition get_critical_relationships (self : StateManager) : gset string :=
  filter (fun rel => is_critical rel = true) (relationships self).

End StateManagerOps.

(** The state manager's methods as calls; queries do not assign to any
    attribute, so they leave the object as it is. *)
Inductive StateManagerCall :=
| CallApplyShift (obj direction : string) (magnitude : Q)
| CallGetRelationships
| CallCheckAlignment (obj_a obj_b : string)
| CallCheckMisalignment (obj reference : string)
| CallGetAlignmentScore (goal_relationships : gset string)
| CallGetPosition (obj : string)
| CallGetStateSnapshot
| CallResetToInitial
| CallComputeDisplacement (obj : string)
| CallGetCriticalRelationships
| CallRepr.

Definition run_call (self : StateManager) (c : StateManagerCall) : StateManager :=
  match c with
  | CallApplyShift obj direction magnitude =>
      (StateManagerOps.apply_shift self obj direction magnitude).1.1
  | CallResetToInitial => StateManagerOps.reset_to_initial self
  | CallGetRelationships | CallCheckAlignment _ _ | CallCheckMisalignment _ _
  | CallGetAlignmentScore _ | CallGetPosition _ | CallGetStateSnapshot
  | CallComputeDisplacement _ | CallGetCriticalRelationships | CallRepr =>
      self
  end.

Definition run_calls (self : StateManager) (cs : list StateManagerCall)
  : StateManager :=
  fold_left run_call cs self.

(** ** reward_shaper.py *)

Abbreviation Intervention := (string * string)%type.

Definition shift_tokens : list string := ["left"; "right"; "forward"; "back"].

(** [any(d in action for d in ['left', 'right', 'forward', 'back'])] *)
Definition any_shift_token (action : string) : bool :=
  existsb (fun d => PyStr.contains d action) shift_tokens.

Record RewardShaper := mkRewardShaper {
  goal : gset string;
  shift_bonus : Q;
  depth_penalty : Q
}.

Definition Qnat (n : nat) : Q := inject_Z (Z.of_nat n).

Module RewardShaperOps.

Definition step_reward (self : RewardShaper) (prev_rels curr_rels : gset string)
    (action : string) : Q :=
  let reward := 0 in
  if any_shift_token action then reward + shift_bonus self else reward.

Definition final_reward (self : RewardShaper) (final_rels : gset string)
    (interventions : list Intervention) : Q :=
  let base :=
    if (size (goal self) =? 0)%nat then 1
    else
      let achieved := size (final_rels ∩ goal self) in
      let total := size (goal self) in
      Qnat achieved / Qnat total in
  let penalty := depth_penalty self * Qnat (length interventions) in
  base - penalty.

End RewardShaperOps.

(** ** interventions.py *)

Record InterventionApplier := mkInterventionApplier {
  state_manager : StateManager;
  shift_reward : Q
}.

Section Applier.

(** The builtin [float]: [None] stands for a raised [ValueError]. *)
Variable py_float : string -> option Q.

Definition valid_directions : list string := ["left"; "right"; "forward"; "back"].

(** [parse_action]: [None] is the pair [(None, None)]. *)
Definition parse_action (action : string) : option (string * Q) :=
  match PyStr.split PyStr.comma action with
  | [part0; part1] =>
      let direction := PyStr.strip part0 in
      match py_float (PyStr.strip part1) with
      | None => None
      | Some magnitude =>
          if existsb (String.eqb direction) valid_directions
          then Some (direction, magnitude)
          else None
      end
  | _ => None
  end.

(** The methods return the applier (whose state manager may have been
    updated), the returned pair and the lines printed. *)
Definition apply_result : Type := InterventionApplier * (bool * Q) * list string.

Definition _apply_shift (self : InterventionApplier) (obj action : string)
  : apply_result :=
  match parse_action action with
  | None =>
      (self, (false, 0),
       ["[InterventionApplier] Failed to parse action: " ++ action])
  | Some (direction, magnitude) =>
      let '(sm, success, out) :=
        StateManagerOps.apply_shift (state_manager self) obj direction magnitude in
      let self' := {| state_manager := sm; shift_reward := shift_reward self |} in
      if negb success then (self', (false, 0), out)
      else
        let reward := if success then shift_reward self else 0 in
        (self', (success, reward), out)
  end.

Definition _apply_swap (self : InterventionApplier) (action : string)
  : apply_result :=
  (self, (false, 0), ["[InterventionApplier] Swap not yet implemented"]).

Definition _apply_pick_place (self : InterventionApplier) (obj action : string)
  : apply_result :=
  (self, (false, 0), ["[InterventionApplier] Pick/place not yet implemented"]).

Definition apply (self : InterventionApplier) (obj action : string)
  : apply_result :=
  if PyStr.contains "," action && any_shift_token action
  then _apply_shift self obj action
  else if String.eqb obj "Swap" && PyStr.contains "," action
  then _apply_swap self action
  else if PyStr.contains "pick" action || PyStr.contains "place" action
  then _apply_pick_place self obj action
  else (self, (false, 0),
        ["[InterventionApplier] Unknown action type: " ++ action]).

Definition create_intervention_applier (initial_state : InitialState)
    (shift_reward : Q) (alignment_threshold : Q) : InterventionApplier :=
  {| state_manager := StateManagerOps.init initial_state alignment_threshold;
     shift_reward := shift_reward |}.

End Applier.

(** ** mcts.py *)

(** Nodes live in an arena: a node is referred to by its index, the root
    is index 0, and [parent] and [children] hold indices. *)
Record MCTSNode := mkMCTSNode {
  interventions : list Intervention;
  parent : option nat;
  children : list nat;
  visits : nat;
  total_reward : Q;
  untried_actions : option (list Intervention);
  local_violations : gset Intervention
}.

(** [MCTSNode.__init__] *)
Definition new_node (interventions : list Intervention) (parent : option nat)
  : MCTSNode :=
  {| interventions := interventions;
     parent := parent;
     children := [];
     visits := 0;
     total_reward := 0;
     untried_actions := None;
     local_violations := ∅ |}.

Abbreviation Tree := (list MCTSNode).

Definition node_at (t : Tree) (i : nat) : MCTSNode :=
  default (new_node [] None) (t !! i).

Definition set_untried_actions (n : MCTSNode) (u : option (list Intervention))
  : MCTSNode :=
  {| interventions := interventions n; parent := parent n;
     children := children n; visits := visits n;
     total_reward := total_reward n; untried_actions := u;
     local_violations := local_violations n |}.

Definition set_children (n : MCTSNode) (cs : list nat) : MCTSNode :=
  {| interventions := interventions n; parent := parent n;
     children := cs; visits := visits n;
     total_reward := total_reward n; untried_actions := untried_actions n;
     local_violations := local_violations n |}.

(** [node.visits += 1; node.total_reward += reward] *)
Definition record_visit (n : MCTSNode) (reward : Q) : MCTSNode :=
  {| interventions := interventions n; parent := parent n;
     children := children n; visits := S (visits n);
     total_reward := total_reward n + reward;
     untried_actions := untried_actions n;
     local_violations := local_violations n |}.

(** [node.local_violations.update(vs)] *)
Definition update_violations (n : MCTSNode) (vs : gset Intervention) : MCTSNode :=
  {| interventions := interventions n; parent := parent n;
     children := children n; visits := visits n;
     total_reward := total_reward n; untried_actions := untried_actions n;
     local_violations := local_violations n ∪ vs |}.

(** The scenario dictionary, with the entries [main] reads from it. *)
Record Scenario := mkScenario {
  sc_symbolic_goal : list string;
  sc_intv_space : list (string * list string);
  sc_max_rollout_depth : Z;
  sc_termination_threshold : Q;
  sc_shift_bonus : Q;
  sc_depth_penalty : Q
}.

Record CausalMCTS := mkCausalMCTS {
  initial_state : InitialState;
  goal_state : gset string;
  scenario : Scenario;
  reward_shaper : RewardShaper;
  intervention_space : list (string * list string);
  max_rollout_depth : Z;
  termination_threshold : Q;
  exploration_constant : Q;
  reward_history : list (list Intervention * Q);
  intervention_trace : list (list Intervention * nat * Q * Q);
  solution_found : bool;
  current_relationships : gset string
}.

(** [CausalMCTS.__init__] *)
Definition new_planner (initial_state : InitialState) (goal_state : gset string)
    (scenario : Scenario) (reward_shaper : RewardShaper)
    (intervention_space : list (string * list string))
    (max_rollout_depth : Z) (termination_threshold exploration_constant : Q)
  : CausalMCTS :=
  {| initial_state := initial_state;
     goal_state := goal_state;
     scenario := scenario;
     reward_shaper := reward_shaper;
     intervention_space := intervention_space;
     max_rollout_depth := max_rollout_depth;
     termination_threshold := termination_threshold;
     exploration_constant := exploration_constant;
     reward_history := [];
     intervention_trace := [];
     solution_found := false;
     current_relationships := list_to_set (st_relationships initial_state) |}.

Definition append_reward_history (self : CausalMCTS)
    (entry : list Intervention * Q) : CausalMCTS :=
  {| initial_state := initial_state self; goal_state := goal_state self;
     scenario := scenario self; reward_shaper := reward_shaper self;
     intervention_space := intervention_space self;
     max_rollout_depth := max_rollout_depth self;
     termination_threshold := termination_threshold self;
     exploration_constant := exploration_constant self;
     reward_history := reward_history self ++ [entry];
     intervention_trace := intervention_trace self;
     solution_found := solution_found self;
     current_relationships := current_relationships self |}.

Definition append_intervention_trace (self : CausalMCTS)
    (entry : list Intervention * nat * Q * Q) : CausalMCTS :=
  {| initial_state := initial_state self; goal_state := goal_state self;
     scenario := scenario self; reward_shaper := reward_shaper self;
     intervention_space := intervention_space self;
     max_rollout_depth := max_rollout_depth self;
     termination_threshold := termination_threshold self;
     exploration_constant := exploration_constant self;
     reward_history := reward_history self;
     intervention_trace := intervention_trace self ++ [entry];
     solution_found := solution_found self;
     current_relationships := current_relationships self |}.

Definition set_solution_found (self : CausalMCTS) (b : bool) : CausalMCTS :=
  {| initial_state := initial_state self; goal_state := goal_state self;
     scenario := scenario self; reward_shaper := reward_shaper self;
     intervention_space := intervention_space self;
     max_rollout_depth := max_rollout_depth self;
     termination_threshold := termination_threshold self;
     exploration_constant := exploration_constant self;
     reward_history := reward_history self;
     intervention_trace := intervention_trace self;
     solution_found := b;
     current_relationships := current_relationships self |}.

(** The state of the [random] module: the sequence of raw draws and how
    many of them have been consumed. *)
Record RandomState := mkRandomState { draws : nat -> nat; cursor : nat }.

(** [random.choice(l)] on a non-empty list *)
Definition random_choice {A : Type} (rs : RandomState) (d : A) (l : list A)
  : A * RandomState :=
  (nth (draws rs (cursor rs) mod length l) l d,
   {| draws := draws rs; cursor := S (cursor rs) |}).

(** Scores of the UCT rule: a float that is finite, or one of the two
    infinities. *)
Inductive Score := NegInf | Fin (q : Q) | PosInf.

(** [a > b] *)
Definition score_gt (a b : Score) : bool :=
  match a, b with
  | NegInf, _ => false
  | Fin _, NegInf => true
  | Fin x, Fin y => Qltb y x
  | Fin _, PosInf => false
  | PosInf, PosInf => false
  | PosInf, _ => true
  end.

(** [exploit + explore] for a finite [exploit] *)
Definition score_add (exploit : Q) (explore : Score) : Score :=
  match explore with
  | NegInf => NegInf
  | Fin e => Fin (exploit + e)
  | PosInf => PosInf
  end.

(** [max(l, key=key)]: the first element whose key is maximal. *)
Fixpoint max_by_loop {A : Type} (key : A -> Q) (best : A) (best_key : Q)
    (l : list A) : A :=
  match l with
  | [] => best
  | c :: l' =>
      if Qltb best_key (key c) then max_by_loop key c (key c) l'
      else max_by_loop key best best_key l'
  end.

Definition py_max {A : Type} (key : A -> Q) (l : list A) : option A :=
  match l with
  | [] => None
  | c :: l' => Some (max_by_loop key c (key c) l')
  end.

(** The state of a search run: the planner object, the tree rooted at
    index 0 and the random source. *)
Record SearchState := mkSearchState {
  engine : CausalMCTS;
  tree : Tree;
  random_state : RandomState
}.

(** What one pass through the body of the main loop did. *)
Inductive IterationOutcome :=
| Skipped
| AlreadySolved (child : nat)
| RolledOut (child : nat) (reward : Q).

Section Search.

Variable py_float : string -> option Q.
(** [math.log] and [math.sqrt] *)
Variable math_log : Q -> Q.
Variable math_sqrt : Q -> Q.

Definition get_legal_actions (self : CausalMCTS)
    (interventions : list Intervention) (node : MCTSNode)
  : list Intervention :=
  flat_map
    (fun '(obj, actions) =>
       flat_map
         (fun action =>
            let candidate := (obj, action) in
            if bool_decide (candidate ∈ local_violations node) then []
            else
              let intervened_objects := map fst interventions in
              if existsb (String.eqb obj) intervened_objects
                 && negb (String.eqb obj "Swap")
              then []
              else [candidate])
         actions)
    (intervention_space self).

(** The score [_best_child] gives to one child of [node]. *)
Definition uct_score (self : CausalMCTS) (node child : MCTSNode) : Score :=
  let exploit :=
    if (0 <? visits child)%nat
    then total_reward child / Qnat (visits child) else 0 in
  let explore :=
    if (0 <? visits child)%nat && (0 <? visits node)%nat
    then Fin (exploration_constant self
              * math_sqrt (math_log (Qnat (visits node)) / Qnat (visits child)))
    else PosInf in
  score_add exploit explore.

Fixpoint best_child_loop (self : CausalMCTS) (t : Tree) (node : MCTSNode)
    (cs : list nat) (best_child : option nat) (best_score : Score)
  : option nat :=
  match cs with
  | [] => best_child
  | child :: cs' =>
      let score := uct_score self node (node_at t child) in
      if score_gt score best_score
      then best_child_loop self t node cs' (Some child) score
      else best_child_loop self t node cs' best_child best_score
  end.

Definition _best_child (self : CausalMCTS) (t : Tree) (node : nat)
  : option nat :=
  best_child_loop self t (node_at t node) (children (node_at t node))
                  None NegInf.

(** Truth value of [node.untried_actions]. *)
Definition has_untried (n : MCTSNode) : bool :=
  match untried_actions n with
  | Some (_ :: _) => true
  | _ => false
  end.

(** The [while True] loop of [select]; [None] when the fuel runs out. *)
Fixpoint select_loop (fuel : nat) (self : CausalMCTS) (t : Tree) (node : nat)
  : option (Tree * nat) :=
  match fuel with
  | O => None
  | S fuel' =>
      if has_untried (node_at t node) then Some (t, node)
      else
        match children (node_at t node) with
        | _ :: _ =>
            match _best_child self t node with
            | None => None
            | Some node' =>
                let n' := node_at t node' in
                let t' :=
                  match untried_actions n' with
                  | None =>
                      <[node' := set_untried_actions n'
                           (Some (get_legal_actions self (interventions n') n'))]> t
                  | Some _ => t
                  end in
                select_loop fuel' self t' node'
            end
        | [] => Some (t, node)
        end
  end.

Definition select (self : CausalMCTS) (t : Tree) (node : nat)
  : option (Tree * nat) :=
  select_loop (length t) self t node.

Definition expand (self : CausalMCTS) (t : Tree) (node : nat) : Tree * nat :=
  let n := node_at t node in
  let t1 :=
    match untried_actions n with
    | None =>
        <[node := set_untried_actions n
             (Some (get_legal_actions self (interventions n) n))]> t
    | Some _ => t
    end in
  let n1 := node_at t1 node in
  match untried_actions n1 with
  | Some (action :: rest) =>
      let new_interventions := (interventions n1 ++ [action])%list in
      let child := length t1 in
      let n2 := set_children (set_untried_actions n1 (Some rest))
                             (children n1 ++ [child])%list in
      ((<[node := n2]> t1 ++ [new_node new_interventions (Some node)])%list, child)
  | _ => (t1, node)
  end.

(** The state manager and applier every rollout starts from. *)
Definition rollout_applier (self : CausalMCTS) : InterventionApplier :=
  let state_mgr := StateManagerOps.init (initial_state self) 0.005 in
  {| state_manager := state_mgr; shift_reward := 0.0 |}.

(** One replayed or simulated intervention: the applier (with its state
    manager), [prev_rels] and [shaped_reward] after it. *)
Definition rollout_step (self : CausalMCTS)
    (acc : InterventionApplier * gset string * Q) (iv : Intervention)
  : InterventionApplier * gset string * Q :=
  let '(applier, prev_rels, shaped_reward) := acc in
  let '(obj, action) := iv in
  let '(applier', (success, step_reward), _) :=
    apply py_float applier obj action in
  let current_rels :=
    StateManagerOps.get_relationships (state_manager applier') in
  let shaped_reward :=
    shaped_reward
    + RewardShaperOps.step_reward (reward_shaper self) prev_rels current_rels
                                  action in
  let shaped_reward := shaped_reward + step_reward in
  (applier', current_rels, shaped_reward).

Definition tracked_objects : list string := ["1"; "2"; "3"; "4"].

Definition misalignment_bonus (state_mgr : StateManager) (prefix_len : nat)
  : Q :=
  if (prefix_len <=? 1)%nat then
    fold_left
      (fun bonus obj =>
         match StateManagerOps.get_position state_mgr obj,
               StateManagerOps.get_position state_mgr "0" with
         | Some _, Some _ =>
             let is_aligned :=
               negb (StateManagerOps.check_misalignment state_mgr obj "0") in
             if is_aligned then bonus + 0.25 else bonus
         | _, _ => bonus
         end)
      tracked_objects 0.0
  else
    fold_left
      (fun bonus obj =>
         if negb (StateManagerOps.check_misalignment state_mgr obj "0")
         then bonus + 0.25 else bonus)
      tracked_objects 0.0.

(** The random suffix: at most [budget] further actions. *)
Fixpoint rollout_suffix (self : CausalMCTS) (node : MCTSNode) (budget : nat)
    (acc : InterventionApplier * gset string * Q)
    (rollout_history : list Intervention) (rng : RandomState)
  : InterventionApplier * gset string * Q * list Intervention * RandomState :=
  match budget with
  | O => (acc, rollout_history, rng)
  | S budget' =>
      match get_legal_actions self rollout_history node with
      | [] => (acc, rollout_history, rng)
      | (d :: _) as valid_actions =>
          let '(choice, rng') := random_choice rng d valid_actions in
          rollout_suffix self node budget' (rollout_step self acc choice)
                         (rollout_history ++ [choice])%list rng'
      end
  end.

(** [rollout], returning also the applier it ended with. *)
Definition rollout_run (self : CausalMCTS) (node : MCTSNode)
    (rng : RandomState)
  : Q * CausalMCTS * RandomState * InterventionApplier :=
  let applier := rollout_applier self in
  let prev_rels : gset string :=
    list_to_set (st_relationships (initial_state self)) in
  let shaped_reward := 0.0 in
  let '(applier, prev_rels, shaped_reward) :=
    fold_left (rollout_step self) (interventions node)
              (applier, prev_rels, shaped_reward) in
  let state_mgr := state_manager applier in
  let current_rels := StateManagerOps.get_relationships state_mgr in
  let shaped_reward :=
    shaped_reward
    + RewardShaperOps.final_reward (reward_shaper self) current_rels
                                   (interventions node) in
  let shaped_reward :=
    shaped_reward
    + misalignment_bonus state_mgr (length (interventions node)) in
  if Qle_bool (termination_threshold self) shaped_reward then
    (shaped_reward,
     append_reward_history self (interventions node, shaped_reward),
     rng, applier)
  else
    let prefix_len := Z.of_nat (length (interventions node)) in
    let suffix_budget := Z.max 0 (max_rollout_depth self - prefix_len) in
    let '(applier, prev_rels, shaped_reward, rollout_history, rng) :=
      rollout_suffix self node (Z.to_nat suffix_budget)
                     (applier, prev_rels, shaped_reward)
                     (interventions node) rng in
    let current_rels :=
      StateManagerOps.get_relationships (state_manager applier) in
    let shaped_reward :=
      shaped_reward
      + RewardShaperOps.final_reward (reward_shaper self) current_rels
                                     rollout_history in
    (shaped_reward,
     append_reward_history self (rollout_history, shaped_reward),
     rng, applier).

Definition rollout (self : CausalMCTS) (node : MCTSNode) (rng : RandomState)
  : Q * CausalMCTS * RandomState :=
  (rollout_run self node rng).1.

(** The [while node is not None] loop of [backpropagate]. *)
Fixpoint backpropagate_loop (fuel : nat) (self : CausalMCTS) (t : Tree)
    (node : option nat) (reward : Q) : option (CausalMCTS * Tree) :=
  match node with
  | None => Some (self, t)
  | Some i =>
      match fuel with
      | O => None
      | S fuel' =>
          let n := record_visit (node_at t i) reward in
          let t1 := <[i := n]> t in
          let t2 :=
            match parent n with
            | Some p =>
                <[p := update_violations (node_at t1 p) (local_violations n)]> t1
            | None => t1
            end in
          let avg_reward := total_reward n / Qnat (visits n) in
          let self' :=
            append_intervention_trace self
              (interventions n, visits n, avg_reward, reward) in
          backpropagate_loop fuel' self' t2 (parent n) reward
      end
  end.

Definition backpropagate (self : CausalMCTS) (t : Tree) (node : nat)
    (reward : Q) : option (CausalMCTS * Tree) :=
  backpropagate_loop (length t) self t (Some node) reward.

(** [c.total_reward / c.visits if c.visits else 0.0] *)
Definition average_reward (t : Tree) (c : nat) : Q :=
  let n := node_at t c in
  if (visits n =? 0)%nat then 0.0 else total_reward n / Qnat (visits n).

(** The value returned once the loop of [search_resolution] is over. *)
Definition best_solution (t : Tree) : list Intervention :=
  match py_max (average_reward t) (children (node_at t 0)) with
  | Some best => interventions (node_at t best)
  | None => []
  end.

(** The body of the main loop up to and including backpropagation. *)
Definition mcts_iteration (st : SearchState)
  : option (SearchState * IterationOutcome) :=
  match select (engine st) (tree st) 0 with
  | None => None
  | Some (t1, node) =>
      let '(t2, child) := expand (engine st) t1 node in
      match interventions (node_at t2 child) with
      | [] =>
          Some ({| engine := engine st; tree := t2;
                   random_state := random_state st |}, Skipped)
      | _ :: _ =>
          if solution_found (engine st) then
            Some ({| engine := engine st; tree := t2;
                     random_state := random_state st |}, AlreadySolved child)
          else
            let '(reward, eng1, rng1) :=
              rollout (engine st) (node_at t2 child) (random_state st) in
            match backpropagate eng1 t2 child reward with
            | None => None
            | Some (eng2, t3) =>
                Some ({| engine := eng2; tree := t3; random_state := rng1 |},
                      RolledOut child reward)
            end
      end
  end.

(** The [for i in range(iterations)] loop and what follows it:
    [remaining] iterations are left and [i] is the current index. *)
Fixpoint search_loop (remaining i : nat) (iterations : Z) (st : SearchState)
  : option (list Intervention * Z * SearchState) :=
  match remaining with
  | O => Some (best_solution (tree st), iterations, st)
  | S remaining' =>
      match mcts_iteration st with
      | None => None
      | Some (st', Skipped) => search_loop remaining' (S i) iterations st'
      | Some (st', AlreadySolved child) =>
          match last (reward_history (engine st')) with
          | Some entry => Some (entry.1, Z.of_nat i, st')
          | None =>
              Some (interventions (node_at (tree st') child), Z.of_nat i, st')
          end
      | Some (st', RolledOut child reward) =>
          if Qle_bool (termination_threshold (engine st')) reward then
            Some (interventions (node_at (tree st') child), Z.of_nat i,
                  {| engine := set_solution_found (engine st') true;
                     tree := tree st';
                     random_state := random_state st' |})
          else search_loop remaining' (S i) iterations st'
      end
  end.

(** [checkMisalignment]: with a state manager it asks the manager; without
    one it compares the initial positions against 0.05. *)
Definition checkMisalignment (self : CausalMCTS) (obj : string)
    (state_manager : option StateManager) : bool :=
  match state_manager with
  | Some sm => StateManagerOps.check_misalignment sm obj "0"
  | None =>
      let objects := st_objects (initial_state self) in
      match objects !! obj, objects !! "0" with
      | Some obj_pos, Some ref_pos =>
          let threshold := 0.05 in
          let x_aligned :=
            Qltb (Qabs (pos_x obj_pos - pos_x ref_pos)) threshold in
          let y_aligned :=
            Qltb (Qabs (pos_y obj_pos - pos_y ref_pos)) threshold in
          negb (x_aligned && y_aligned)
      | _, _ => false
      end
  end.

(** The tree [search_resolution] starts from. *)
Definition initial_tree (self : CausalMCTS) : Tree :=
  let root := new_node [] None in
  let base_actions := get_legal_actions self [] root in
  [set_untried_actions root (Some base_actions)].

Definition search_resolution (self : CausalMCTS) (iterations : Z)
    (rng : RandomState) : option (list Intervention * Z * SearchState) :=
  search_loop (Z.to_nat iterations) 0 iterations
    {| engine := self; tree := initial_tree self; random_state := rng |}.

End Search.

(** ** The float computations over binary64

    [final_reward] and [_best_child] once more, with Python's float
    arithmetic: the kernel's binary64 floats, whose operations round as
    Python's do.  A count (a Python int below 2^63) becomes a float as
    in Python's mixed arithmetic.  [math.log] (applied to an int) and
    [math.sqrt] stay parameters. *)
Module Binary64.

Import PrimFloat.
#[local] Set Warnings "-inexact-float".
#[local] Open Scope float_scope.

Definition of_count (n : nat) : float :=
  of_uint63 (Uint63.of_Z (Z.of_nat n)).

Record RewardShaper := mkRewardShaper {
  goal : gset string;
  shift_bonus : float;
  depth_penalty : float
}.

Definition final_reward (self : RewardShaper) (final_rels : gset string)
    (interventions : list Intervention) : float :=
  let base :=
    if (size (goal self) =? 0)%nat then 1.0
    else
      let achieved := size (final_rels ∩ goal self) in
      let total := size (goal self) in
      of_count achieved / of_count total in
  let penalty := depth_penalty self * of_count (length interventions) in
  base - penalty.

(** What [_best_child] reads of a child. *)
Record Child := mkChild { visits : nat; total_reward : float }.

Section UCT.

Variable math_log : nat -> float.
Variable math_sqrt : float -> float.

(** The score [_best_child] gives to one child of a node with
    [node_visits] visits. *)
Definition uct_score (exploration_constant : float) (node_visits : nat)
    (child : Child) : float :=
  let exploit :=
    if (0 <? visits child)%nat
    then total_reward child / of_count (visits child) else 0.0 in
  let explore :=
    if (0 <? visits child)%nat && (0 <? node_visits)%nat
    then exploration_constant
         * math_sqrt (math_log node_visits / of_count (visits child))
    else infinity in
  exploit + explore.

(** The loop over [node.children]; a child is named by its position. *)
Fixpoint best_child_loop (exploration_constant : float) (node_visits : nat)
    (children : list Child) (index : nat) (best_child : option nat)
    (best_score : float) : option nat :=
  match children with
  | [] => best_child
  | child :: rest =>
      let score := uct_score exploration_constant node_visits child in
      if best_score <? score
      then best_child_loop exploration_constant node_visits rest (S index)
             (Some index) score
      else best_child_loop exploration_constant node_visits rest (S index)
             best_child best_score
  end.

Definition _best_child (exploration_constant : float) (node_visits : nat)
    (children : list Child) : option nat :=
  best_child_loop exploration_constant node_visits children 0 None
    neg_infinity.

End UCT.



(** A shaper with an empty goal and the depth penalty given. *)
Definition shaper_with_penalty (depth_penalty : float) : RewardShaper :=
  {| goal := ∅; shift_bonus := 0; depth_penalty := depth_penalty |}.

End Binary64.

(** ** Concrete inputs *)

(** A stand-in for the builtin [float] in the examples.  It agrees with
    the builtin on plain decimal literals (optional sign, digits,
    optional fraction; surrounding white space ignored) and on texts the
    builtin rejects, such as [abc]; the further forms the builtin accepts
    (exponents, underscores, [inf], [nan]) are rejected here.  The
    general statements take [float] as a parameter instead. *)
Module Decimal.

Fixpoint digits_value (s : string) (acc : Z) : option Z :=
  match s with
  | EmptyString => Some acc
  | String c s' =>
      let n := nat_of_ascii c in
      if (48 <=? n)%nat && (n <=? 57)%nat
      then digits_value s' (10 * acc + Z.of_nat (n - 48))%Z
      else None
  end.

Definition unsigned (body : string) : option Q :=
  match PyStr.split "."%char body with
  | [i] =>
      if String.eqb i "" then None
      else inject_Z <$> digits_value i 0
  | [i; f] =>
      if String.eqb i "" && String.eqb f "" then None
      else
        match digits_value i 0, digits_value f 0 with
        | Some a, Some b =>
            let scale := (10 ^ Z.of_nat (String.length f))%Z in
            Some (Qmake (a * scale + b) (Z.to_pos scale))
        | _, _ => None
        end
  | _ => None
  end.

Definition float (s : string) : option Q :=
  match PyStr.strip s with
  | String "-"%char body => Qopp <$> unsigned body
  | String "+"%char body => unsigned body
  | body => unsigned body
  end.

End Decimal.

(** The end-to-end scenario: two objects two centimetres apart. *)
Module Scenario8.

Definition state : InitialState :=
  {| st_objects :=
       <["1" := mkPosition 0.02 0 0]> (<["0" := mkPosition 0 0 0]> ∅);
     st_relationships := ["On(1,0)"] |}.

Definition space : list (string * list string) :=
  [("1", ["left,0.01"; "right,0.01"])].

Definition goal_set : gset string := {["On(1,0)"]}.

Definition config (shift_bonus : Q) (max_depth : Z) : Scenario :=
  {| sc_symbolic_goal := ["On(1,0)"];
     sc_intv_space := space;
     sc_max_rollout_depth := max_depth;
     sc_termination_threshold := 0.9;
     sc_shift_bonus := shift_bonus;
     sc_depth_penalty := 0.05 |}.

Definition planner (shift_bonus : Q) (max_depth : Z) (c : Q) : CausalMCTS :=
  new_planner state goal_set (config shift_bonus max_depth)
    {| goal := goal_set; shift_bonus := shift_bonus; depth_penalty := 0.05 |}
    space max_depth 0.9 c.

Definition rng0 : RandomState := {| draws := fun _ => O; cursor := O |}.

End Scenario8.

(** ** Vocabulary of the statements *)

(** Between [self] and [self'] the object [obj] moved by [dx] along x and
    by [dy] along y; z and every other object stayed where they were. *)
Definition moved_by (self self' : StateManager) (obj : string) (dx dy : Q)
  : Prop :=
  exists p p',
    objects self !! obj = Some p /\ objects self' !! obj = Some p' /\
    pos_x p' == pos_x p + dx /\ pos_y p' == pos_y p + dy /\
    pos_z p' == pos_z p /\
    forall o, o <> obj -> objects self' !! o = objects self !! o.

(** [|Ux - Lx| < threshold] and [|Uy - Ly| < threshold] *)
Definition within_threshold (threshold : Q) (pu pl : Position) : Prop :=
  Qabs (pos_x pu - pos_x pl) < threshold /\
  Qabs (pos_y pu - pos_y pl) < threshold.

(** [|finalRels ∩ goal| / |goal|], or [1] for an empty goal *)
Definition achieved_fraction (goal final_rels : gset string) : Q :=
  if decide (goal = ∅) then 1
  else Qnat (size (final_rels ∩ goal)) / Qnat (size goal).

(** The reward shaper of [test_reward_shaper] in test_system.py. *)
Definition test_shaper : RewardShaper :=
  {| goal := {["On(2,1)"; "On(3,2)"; "On(4,3)"]};
     shift_bonus := 0.0;
     depth_penalty := 0.0 |}.

(** The applier a rollout of the end-to-end scenario starts from. *)
Definition scenario_applier : InterventionApplier :=
  {| state_manager := StateManagerOps.init Scenario8.state 0.005;
     shift_reward := 0.0 |}.

(** A tree as the search builds it: children have larger indices than
    their parent and point back to it, every node but the root has a
    parent that lists it exactly once, and only the root has an empty
    intervention sequence. *)
Record wf_tree (t : Tree) : Prop := mk_wf_tree {
  wf_nonempty : (0 < length t)%nat;
  wf_children :
    forall i c, c ∈ children (node_at t i) -> (i < c < length t)%nat;
  wf_parent_lt :
    forall i p, parent (node_at t i) = Some p -> (p < i)%nat;
  wf_parent_some :
    forall i, (0 < i < length t)%nat ->
      exists p, parent (node_at t i) = Some p /\ i ∈ children (node_at t p);
  wf_child_parent :
    forall i c, c ∈ children (node_at t i) -> parent (node_at t c) = Some i;
  wf_nodup : forall i, NoDup (children (node_at t i));
  wf_interventions :
    forall i, (0 < i < length t)%nat -> interventions (node_at t i) <> [];
  wf_root : interventions (node_at t 0) = []
}.

(** Two nodes with the same place in the tree. *)
Definition same_shape (n n' : MCTSNode) : Prop :=
  interventions n' = interventions n /\ parent n' = parent n /\
  children n' = children n.

(** Two trees with the same nodes at the same places. *)
Definition shape_eq (t t' : Tree) : Prop :=
  length t' = length t /\ forall i, same_shape (node_at t i) (node_at t' i).

(** Two trees whose nodes carry the same visit counts. *)
Definition visits_eq (t t' : Tree) : Prop :=
  forall i, visits (node_at t' i) = visits (node_at t i).

(** The sum of [visits] over the given nodes. *)
Definition sum_visits (t : Tree) (cs : list nat) : nat :=
  foldr (fun c acc => (visits (node_at t c) + acc)%nat) 0%nat cs.

(** The sum of [visits] over the direct children of the root. *)
Definition root_children_visits (t : Tree) : nat :=
  sum_visits t (children (node_at t 0)).








(** [n'] is [n], possibly after the lazy initialisation of its untried
    actions. *)
Definition lazily_initialised (self : CausalMCTS) (n n' : MCTSNode) : Prop :=
  n' = n \/
  (untried_actions n = None /\
   n' = set_untried_actions n
          (Some (get_legal_actions self (interventions n) n))).


(** [r] and the step rewards of the shaper along [ivs], added in order. *)
Definition with_step_rewards (shaper : RewardShaper) (r : Q)
    (ivs : list Intervention) : Q :=
  fold_left
    (fun r iv => r + RewardShaperOps.step_reward shaper ∅ ∅ iv.2) ivs r.

Section Runs.

Variable py_float : string -> option Q.
Variable math_log : Q -> Q.
Variable math_sqrt : Q -> Q.

(** The applier after the interventions [ivs] were applied to [a], in
    order. *)
Definition replay (a : InterventionApplier) (ivs : list Intervention)
  : InterventionApplier :=
  fold_left (fun a iv => (apply py_float a iv.1 iv.2).1.1) ivs a.



End Runs.







(** The state manager of the end-to-end scenario with its 0.05 threshold. *)
Definition scenario_state_manager : StateManager :=
  StateManagerOps.init Scenario8.state 0.05.

(** The reward shaper of the end-to-end scenario with shift bonus 0. *)
Definition scenario_shaper : RewardShaper :=
  {| goal := Scenario8.goal_set; shift_bonus := 0; depth_penalty := 0.05 |}.






(** The nodes from [i] up to the root, following [parent]. *)
Fixpoint path_to_root (fuel : nat) (t : Tree) (i : nat) : list nat :=
  match fuel with
  | O => []
  | S fuel' =>
      i :: match parent (node_at t i) with
           | Some p => path_to_root fuel' t p
           | None => []
           end
  end.

(** The planner of the end-to-end scenario, and the same planner with its
    [solution_found] flag already set. *)
Definition scenario_planner : CausalMCTS := Scenario8.planner 0 5 0.

Definition solved_planner : CausalMCTS :=
  set_solution_found scenario_planner true.

(** A rollout of the scenario: the node reached by shifting object 1 to
    the left by 0.01, which leaves it 0.01 away from object 0. *)
Definition scenario_rollout
  : Q * CausalMCTS * RandomState * InterventionApplier :=
  rollout_run Decimal.float scenario_planner
    (new_node [("1", "left,0.01")] (Some 0%nat)) Scenario8.rng0.

(** The tree of the scenario after the root was expanded once. *)
Definition expanded_scenario_tree : Tree :=
  (expand scenario_planner (initial_tree scenario_planner) 0).1.

(** * Properties *)

(** ** Comparisons and strings *)

Lemma Qltb_lt (a b : Q) : Qltb a b = true <-> a < b.
Proof.
  unfold Qltb. rewrite negb_true_iff. split.
  - intros H. apply Qnot_le_lt. intros Hle.
    apply Qle_bool_iff in Hle. congruence.
  - intros H. destruct (Qle_bool b a) eqn:E; [|reflexivity].
    apply Qle_bool_iff in E. exfalso. exact (Qlt_not_le _ _ H E).
Qed.


Lemma split_no_sep (c : ascii) (s : string) :
  PyStr.no_char c s -> PyStr.split c s = [s].
Proof.
  induction s as [|d s IH]; simpl; [reflexivity|].
  intros [Hd Hs]. rewrite (IH Hs).
  destruct (Ascii.eqb_spec d c); [contradiction|reflexivity].
Qed.

Lemma split_two_fields (c : ascii) (u l : string) :
  PyStr.no_char c u -> PyStr.no_char c l ->
  PyStr.split c (u ++ String c l) = [u; l].
Proof.
  intros Hu Hl. induction u as [|d u IH]; simpl.
  - rewrite Ascii.eqb_refl. now rewrite split_no_sep.
  - destruct Hu as [Hd Hu]. rewrite (IH Hu).
    destruct (Ascii.eqb_spec d c); [contradiction|reflexivity].
Qed.

Lemma remove_last_snoc (s : string) (c : ascii) :
  PyStr.remove_last (s ++ String c EmptyString) = s.
Proof.
  induction s as [|d s IH]; simpl; [reflexivity|].
  rewrite IH. destruct s; reflexivity.
Qed.

Lemma append_cons (c : ascii) (s1 s2 : string) :
  String c s1 ++ s2 = String c (s1 ++ s2).
Proof. reflexivity. Qed.

Lemma append_nil_l (s : string) : EmptyString ++ s = s.
Proof. reflexivity. Qed.

Lemma append_assoc (s1 s2 s3 : string) : (s1 ++ s2) ++ s3 = s1 ++ (s2 ++ s3).
Proof.
  induction s1 as [|c s1 IH]; [reflexivity|].
  now rewrite !append_cons, IH.
Qed.

Lemma prefix_empty (s : string) : String.prefix "" s = true.
Proof. destruct s; reflexivity. Qed.

(** The text [On(u,l)] is split by the source's parsing into [u] and [l]. *)
Lemma on_predicate_fields (u l : string) :
  PyStr.no_char PyStr.comma u -> PyStr.no_char PyStr.comma l ->
  String.prefix "On(" ("On(" ++ u ++ "," ++ l ++ ")") = true /\
  PyStr.split PyStr.comma (PyStr.slice_3_m1 ("On(" ++ u ++ "," ++ l ++ ")"))
  = [u; l].
Proof.
  intros Hu Hl. rewrite !append_cons, !append_nil_l. split; [simpl; apply prefix_empty|].
  unfold PyStr.slice_3_m1. cbn [PyStr.drop].
  change (String "," (l ++ ")")) with (String "," l ++ ")").
  rewrite <- append_assoc.
  rewrite remove_last_snoc. now apply split_two_fields.
Qed.

(** ** The state manager *)

Section StateManagerFacts.

Import StateManagerOps.

Lemma direction_vectors_tokens (m : Q) (direction : string) :
  direction_vectors m direction =
    if bool_decide (direction = "left") then Some (- m, 0, 0)
    else if bool_decide (direction = "right") then Some (m, 0, 0)
    else if bool_decide (direction = "forward") then Some (0, m, 0)
    else if bool_decide (direction = "back") then Some (0, - m, 0)
    else None.
Proof.
  unfold direction_vectors.
  repeat (case_bool_decide;
          [subst direction; reflexivity
          |match goal with
           | H : direction <> _ |- _ =>
               apply String.eqb_neq in H; rewrite H; clear H
           end]).
  reflexivity.
Qed.

Lemma apply_shift_known (self : StateManager) (obj direction : string)
    (m dx dy dz : Q) (p : Position) :
  objects self !! obj = Some p ->
  direction_vectors m direction = Some (dx, dy, dz) ->
  dz == 0 ->
  (apply_shift self obj direction m).1.2 = true /\
  moved_by self (apply_shift self obj direction m).1.1 obj dx dy.
Proof.
  intros Hp Hd Hz. unfold apply_shift. rewrite Hp, Hd. cbn.
  split; [reflexivity|].
  exists p, {| pos_x := pos_x p + dx; pos_y := pos_y p + dy;
               pos_z := pos_z p + dz |}.
  cbn. rewrite lookup_insert_eq.
  repeat split; try reflexivity; try assumption.
  - transitivity (pos_z p + 0); [|apply Qplus_0_r].
    apply Qplus_comp; [reflexivity|exact Hz].
  - intros o Ho. now rewrite lookup_insert_ne.
Qed.

(** C3: a shift of a known object moves it along one axis only, by the
    signed magnitude the direction implies (left -x, right +x, forward
    +y, back -y), leaves z and every other object alone and returns
    True; for an unknown object or an unknown direction it returns
    False and the state manager is left exactly as it was. *)
Theorem apply_shift_correct (self : StateManager) (obj direction : string)
    (m : Q) :
  let r := apply_shift self obj direction m in
  (is_Some (objects self !! obj) ->
     (direction = "left" -> r.1.2 = true /\ moved_by self r.1.1 obj (- m) 0) /\
     (direction = "right" -> r.1.2 = true /\ moved_by self r.1.1 obj m 0) /\
     (direction = "forward" -> r.1.2 = true /\ moved_by self r.1.1 obj 0 m) /\
     (direction = "back" -> r.1.2 = true /\ moved_by self r.1.1 obj 0 (- m))) /\
  (objects self !! obj = None \/ direction ∉ shift_tokens ->
     r.1 = (self, false)).
Proof.
  cbn zeta. split.
  - intros [p Hp].
    split; [|split; [|split]]; intros ->;
      (eapply apply_shift_known; [exact Hp|reflexivity|reflexivity]).
  - intros [Hn|Hd]; unfold apply_shift.
    + now rewrite Hn.
    + destruct (objects self !! obj); [|reflexivity].
      rewrite direction_vectors_tokens.
      repeat (case_bool_decide;
              [exfalso; apply Hd; subst direction; unfold shift_tokens;
               set_solver|]).
      reflexivity.
Qed.

Lemma run_call_keeps (self : StateManager) (c : StateManagerCall) :
  relationships (run_call self c) = relationships self /\
  initial_objects (run_call self c) = initial_objects self /\
  alignment_threshold (run_call self c) = alignment_threshold self.
Proof.
  destruct c; cbn; try (repeat split; reflexivity).
  unfold apply_shift.
  destruct (objects self !! obj); [|repeat split; reflexivity].
  destruct (direction_vectors magnitude direction) as [[[dx dy] dz]|];
    repeat split; reflexivity.
Qed.

Lemma run_calls_keeps (cs : list StateManagerCall) (self : StateManager) :
  relationships (run_calls self cs) = relationships self /\
  initial_objects (run_calls self cs) = initial_objects self /\
  alignment_threshold (run_calls self cs) = alignment_threshold self.
Proof.
  revert self. induction cs as [|c cs IH]; intros self; cbn.
  - repeat split; reflexivity.
  - destruct (IH (run_call self c)) as (Hr & Hi & Ht).
    destruct (run_call_keeps self c) as (Hr' & Hi' & Ht').
    unfold run_calls in *. rewrite Hr, Hi, Ht. auto.
Qed.

(** C9: whatever methods are called on a state manager after its
    construction, its declared relationship set stays the set captured
    by the constructor; resetting restores the construction-time
    positions, empties the intervened-object set and does not touch the
    relationship set. *)
Theorem relationships_fixed (initial_state : InitialState) (threshold : Q)
    (cs : list StateManagerCall) :
  let self := run_calls (init initial_state threshold) cs in
  relationships self = list_to_set (st_relationships initial_state) /\
  objects (reset_to_initial self) = st_objects initial_state /\
  intervened_objects (reset_to_initial self) = ∅ /\
  relationships (reset_to_initial self) = relationships self.
Proof.
  cbn zeta.
  destruct (run_calls_keeps cs (init initial_state threshold))
    as (Hr & Hi & _).
  cbn [reset_to_initial objects intervened_objects relationships].
  rewrite Hr, Hi. repeat split; reflexivity.
Qed.

Lemma check_alignment_spec (self : StateManager) (a b : string)
    (pa pb : Position) :
  objects self !! a = Some pa -> objects self !! b = Some pb ->
  check_alignment self a b = true <->
  within_threshold (alignment_threshold self) pa pb.
Proof.
  intros Ha Hb. unfold check_alignment, within_threshold.
  rewrite Ha, Hb. cbn zeta. rewrite andb_true_iff, !Qltb_lt. reflexivity.
Qed.

(** C4: the current relationships are a subset of the declared ones; a
    declared [On(U,L)] whose two objects are tracked is in the result
    exactly when both coordinate differences are below the threshold;
    a declared predicate that does not start with [On(], whose body
    does not split into two fields, or that names an untracked object
    is always in the result; and the result depends on the positions,
    the declared set and the threshold only. *)
Theorem get_relationships_correct (self : StateManager) :
  get_relationships self ⊆ relationships self /\
  (forall u l pu pl,
     PyStr.no_char PyStr.comma u -> PyStr.no_char PyStr.comma l ->
     "On(" ++ u ++ "," ++ l ++ ")" ∈ relationships self ->
     objects self !! PyStr.strip u = Some pu ->
     objects self !! PyStr.strip l = Some pl ->
     "On(" ++ u ++ "," ++ l ++ ")" ∈ get_relationships self <->
     within_threshold (alignment_threshold self) pu pl) /\
  (forall rel,
     rel ∈ relationships self ->
     String.prefix "On(" rel = false ->
     rel ∈ get_relationships self) /\
  (forall rel,
     rel ∈ relationships self ->
     length (PyStr.split PyStr.comma (PyStr.slice_3_m1 rel)) <> 2%nat ->
     rel ∈ get_relationships self) /\
  (forall rel u l,
     rel ∈ relationships self ->
     PyStr.split PyStr.comma (PyStr.slice_3_m1 rel) = [u; l] ->
     objects self !! PyStr.strip u = None
     \/ objects self !! PyStr.strip l = None ->
     rel ∈ get_relationships self) /\
  (forall other,
     objects other = objects self ->
     relationships other = relationships self ->
     alignment_threshold other = alignment_threshold self ->
     get_relationships other = get_relationships self).
Proof.
  unfold get_relationships.
  split; [intros rel; rewrite elem_of_filter; tauto|].
  split; [|split; [|split; [|split]]].
  - intros u l pu pl Hu Hl Hin Hpu Hpl.
    rewrite elem_of_filter.
    destruct (on_predicate_fields u l Hu Hl) as [Hpre Hsplit].
    unfold _check_relationship_holds. rewrite Hpre, Hsplit. cbn.
    rewrite Hpu, Hpl.
    rewrite (check_alignment_spec self _ _ pu pl Hpu Hpl). tauto.
  - intros rel Hin Hpre. apply elem_of_filter. split; [|exact Hin].
    unfold _check_relationship_holds. now rewrite Hpre.
  - intros rel Hin Hlen. apply elem_of_filter. split; [|exact Hin].
    unfold _check_relationship_holds.
    destruct (negb (String.prefix "On(" rel)); [reflexivity|].
    destruct (PyStr.split PyStr.comma (PyStr.slice_3_m1 rel))
      as [|a [|b [|c r]]]; cbn in Hlen; try reflexivity.
    contradiction.
  - intros rel u l Hin Hsplit Hnone. apply elem_of_filter.
    split; [|exact Hin].
    unfold _check_relationship_holds.
    destruct (negb (String.prefix "On(" rel)); [reflexivity|].
    rewrite Hsplit. cbn zeta.
    destruct Hnone as [-> | Hn]; [reflexivity|].
    rewrite Hn. now destruct (objects self !! PyStr.strip u).
  - intros other Ho Hr Ht. apply set_eq. intros rel.
    rewrite !elem_of_filter, Hr.
    unfold _check_relationship_holds, check_alignment.
    now rewrite Ho, Ht.
Qed.

End StateManagerFacts.

(** ** The reward shaper *)

Section RewardShaperFacts.

Import RewardShaperOps.

Lemma Qnat_app_length {A : Type} (l1 l2 : list A) :
  Qnat (length (l1 ++ l2)) == Qnat (length l1) + Qnat (length l2).
Proof.
  unfold Qnat. rewrite length_app, Nat2Z.inj_add, inject_Z_plus. reflexivity.
Qed.

Lemma Qnat_pos (n : nat) : (0 < n)%nat -> 0 < Qnat n.
Proof.
  intros H. unfold Qnat. change 0 with (inject_Z 0).
  rewrite <- Zlt_Qlt. lia.
Qed.

Lemma final_reward_formula (self : RewardShaper) (final_rels : gset string)
    (ivs : list Intervention) :
  final_reward self final_rels ivs
  = achieved_fraction (goal self) final_rels
    - depth_penalty self * Qnat (length ivs).
Proof.
  unfold final_reward, achieved_fraction.
  destruct (decide (goal self = ∅)) as [He|Hne].
  - rewrite He, size_empty. reflexivity.
  - destruct (size (goal self) =? 0)%nat eqn:E; [|reflexivity].
    apply Nat.eqb_eq, size_empty_iff in E. exfalso. apply Hne.
    now apply leibniz_equiv.
Qed.

Lemma final_reward_slope (self : RewardShaper) (final_rels : gset string)
    (ivs extra : list Intervention) :
  final_reward self final_rels (ivs ++ extra)
  - final_reward self final_rels ivs
  == - depth_penalty self * Qnat (length extra).
Proof.
  rewrite !final_reward_formula, Qnat_app_length. ring.
Qed.

(** C5 (amended): the final reward is the achieved fraction minus
    [depth_penalty] times the number of interventions, unclamped (it is
    negative when nothing of a non-empty goal is achieved and the
    penalty is positive); with a non-negative depth penalty a longer
    sequence never earns more, and with the depth penalty 0 it earns
    exactly the same. *)
Theorem final_reward_depth (self : RewardShaper) (final_rels : gset string)
    (ivs : list Intervention) :
  final_reward self final_rels ivs
  = achieved_fraction (goal self) final_rels
    - depth_penalty self * Qnat (length ivs) /\
  (0 <= depth_penalty self ->
   forall extra,
     final_reward self final_rels (ivs ++ extra)
     <= final_reward self final_rels ivs) /\
  (depth_penalty self == 0 ->
   forall extra,
     final_reward self final_rels (ivs ++ extra)
     == final_reward self final_rels ivs) /\
  (0 < depth_penalty self -> goal self <> ∅ ->
   final_rels ∩ goal self = ∅ -> ivs <> [] ->
   final_reward self final_rels ivs < 0).
Proof.
  split; [apply final_reward_formula|]. split; [|split].
  - intros Hpos extra.
    pose proof (final_reward_slope self final_rels ivs extra) as Hs.
    assert (Hlen : 0 <= Qnat (length extra))
      by (unfold Qnat; change 0 with (inject_Z 0); rewrite <- Zle_Qle; lia).
    pose proof (Qmult_le_0_compat _ _ Hpos Hlen) as Hm.
    set (m := depth_penalty self * Qnat (length extra)) in *.
    setoid_replace (- depth_penalty self * Qnat (length extra))
      with (- m) using relation Qeq in Hs by (unfold m; ring).
    lra.
  - intros Hz extra.
    pose proof (final_reward_slope self final_rels ivs extra) as Hs.
    assert (Hm : depth_penalty self * Qnat (length extra) == 0)
      by (rewrite Hz; ring).
    set (m := depth_penalty self * Qnat (length extra)) in *.
    setoid_replace (- depth_penalty self * Qnat (length extra))
      with (- m) using relation Qeq in Hs by (unfold m; ring).
    lra.
  - intros Hpos Hg Hi Hne.
    rewrite final_reward_formula. unfold achieved_fraction.
    destruct (decide (goal self = ∅)); [contradiction|].
    rewrite Hi, size_empty.
    assert (Hlen : 0 < Qnat (length ivs)).
    { apply Qnat_pos. destruct ivs; [contradiction|cbn; lia]. }
    pose proof (Qmult_lt_0_compat _ _ Hpos Hlen) as Hm.
    set (m := depth_penalty self * Qnat (length ivs)) in *.
    setoid_replace (Qnat 0 / Qnat (size (goal self))) with 0
      using relation Qeq; [lra|].
    unfold Qnat at 1. cbn [Z.of_nat]. unfold Qdiv. apply Qmult_0_l.
Qed.

(** C5 as stated fails: with the depth penalty 0.0 of the repository's
    own test the reward of a longer sequence is not smaller. *)
Lemma final_reward_flat_without_penalty :
  ~ (final_reward test_shaper {["On(1,0)"; "On(2,1)"; "On(3,2)"]}
       [("1", "left,0.005"); ("2", "right,0.01")]
     < final_reward test_shaper {["On(1,0)"; "On(2,1)"; "On(3,2)"]}
         [("1", "left,0.005")]).
Proof.
  intros H. vm_compute in H. discriminate H.
Qed.

End RewardShaperFacts.

Section RewardShaperRounding.

Import PrimFloat.
#[local] Set Warnings "-inexact-float".
#[local] Open Scope float_scope.

(** With a positive depth penalty the reward of a longer sequence is not
    always smaller, and the step is not always the penalty: the penalty
    1e-17 is absorbed by rounding, and with the penalty 0.05 the step
    from two to three interventions is -0.050000000000000044. *)
Lemma final_reward_is_rounded :
  PrimFloat.eqb
    (Binary64.final_reward (Binary64.shaper_with_penalty 1e-17%float) ∅
       [("1", "left,0.01"); ("2", "left,0.01")])
    (Binary64.final_reward (Binary64.shaper_with_penalty 1e-17%float) ∅
       [("1", "left,0.01")])
  = true /\
  PrimFloat.eqb
    (PrimFloat.sub
       (Binary64.final_reward (Binary64.shaper_with_penalty 0.05%float) ∅
          [("1", "left,0.01"); ("2", "left,0.01"); ("3", "left,0.01")])
       (Binary64.final_reward (Binary64.shaper_with_penalty 0.05%float) ∅
          [("1", "left,0.01"); ("2", "left,0.01")]))
    (-0.05)%float
  = false.
Proof.
  split; vm_compute; reflexivity.
Qed.

End RewardShaperRounding.

(** ** The applier *)

Section ApplierFacts.

Variable py_float : string -> option Q.

Lemma swap_reached (self : InterventionApplier) (action : string) :
  PyStr.contains "," action = true ->
  any_shift_token action = false ->
  apply py_float self "Swap" action
  = (self, (false, 0), ["[InterventionApplier] Swap not yet implemented"]).
Proof.
  intros Hc Hs. unfold apply. rewrite Hc, Hs. reflexivity.
Qed.

Lemma pick_place_reached (self : InterventionApplier) (obj action : string) :
  PyStr.contains "," action && any_shift_token action = false ->
  String.eqb obj "Swap" && PyStr.contains "," action = false ->
  PyStr.contains "pick" action || PyStr.contains "place" action = true ->
  apply py_float self obj action
  = (self, (false, 0),
     ["[InterventionApplier] Pick/place not yet implemented"]).
Proof.
  intros H1 H2 H3. unfold apply. rewrite H1, H2, H3. reflexivity.
Qed.

Lemma parse_failure_reached (self : InterventionApplier) (obj action : string) :
  PyStr.contains "," action = true ->
  any_shift_token action = true ->
  parse_action py_float action = None ->
  apply py_float self obj action
  = (self, (false, 0),
     ["[InterventionApplier] Failed to parse action: " ++ action]).
Proof.
  intros Hc Hs Hp. unfold apply, _apply_shift.
  rewrite Hc, Hs, Hp. reflexivity.
Qed.

(** C6 (amended): a swap descriptor that reaches the swap handler and a
    pick/place descriptor that reaches the pick/place handler both
    return the pair (False, 0.0), the very pair a malformed shift
    descriptor returns, and none of the three touches the state
    manager; the three cases differ only in the line they print. *)
Theorem unsupported_kinds_fail_like_parse_failure
    (self : InterventionApplier) :
  (forall action,
     PyStr.contains "," action = true ->
     any_shift_token action = false ->
     apply py_float self "Swap" action
     = (self, (false, 0),
        ["[InterventionApplier] Swap not yet implemented"])) /\
  (forall obj action,
     PyStr.contains "," action && any_shift_token action = false ->
     String.eqb obj "Swap" && PyStr.contains "," action = false ->
     PyStr.contains "pick" action || PyStr.contains "place" action = true ->
     apply py_float self obj action
     = (self, (false, 0),
        ["[InterventionApplier] Pick/place not yet implemented"])) /\
  (forall obj action,
     PyStr.contains "," action = true ->
     any_shift_token action = true ->
     parse_action py_float action = None ->
     apply py_float self obj action
     = (self, (false, 0),
        ["[InterventionApplier] Failed to parse action: " ++ action])) /\
  (forall action,
     "[InterventionApplier] Failed to parse action: " ++ action
     <> "[InterventionApplier] Swap not yet implemented" /\
     "[InterventionApplier] Failed to parse action: " ++ action
     <> "[InterventionApplier] Pick/place not yet implemented").
Proof.
  split; [exact (swap_reached self)|].
  split; [exact (pick_place_reached self)|].
  split; [exact (parse_failure_reached self)|].
  intros action. rewrite !append_cons. split; discriminate.
Qed.

Lemma apply_keeps (self : InterventionApplier) (obj action : string) :
  let self' := (apply py_float self obj action).1.1 in
  shift_reward self' = shift_reward self /\
  alignment_threshold (state_manager self')
  = alignment_threshold (state_manager self).
Proof.
  cbn zeta. unfold apply, _apply_shift, _apply_swap, _apply_pick_place.
  repeat match goal with
         | |- context [if ?b then _ else _] => destruct b
         end; try (split; reflexivity).
  destruct (parse_action py_float action) as [[direction magnitude]|];
    [|split; reflexivity].
  unfold StateManagerOps.apply_shift.
  destruct (objects (state_manager self) !! obj); [|split; reflexivity].
  destruct (StateManagerOps.direction_vectors magnitude direction)
    as [[[dx dy] dz]|]; split; reflexivity.
Qed.

Lemma apply_reward_zero (self : InterventionApplier) (obj action : string) :
  shift_reward self == 0 ->
  (apply py_float self obj action).1.2.2 == 0.
Proof.
  intros Hz. unfold apply, _apply_shift, _apply_swap, _apply_pick_place.
  repeat match goal with
         | |- context [if ?b then _ else _] => destruct b
         end; try reflexivity.
  destruct (parse_action py_float action) as [[direction magnitude]|];
    [|reflexivity].
  destruct (StateManagerOps.apply_shift (state_manager self) obj direction
              magnitude) as [[sm success] out].
  destruct success; cbn; [exact Hz|reflexivity].
Qed.

End ApplierFacts.

(** C6 as stated fails: the swap stub and the pick/place stub return the
    same value as a malformed shift descriptor. *)
Lemma unsupported_result_equals_parse_failure :
  (apply Decimal.float scenario_applier "Swap" "1, 2").1.2
  = (apply Decimal.float scenario_applier "1" "left,abc").1.2 /\
  (apply Decimal.float scenario_applier "1" "pick-top").1.2
  = (apply Decimal.float scenario_applier "1" "left,abc").1.2.
Proof.
  split; vm_compute; reflexivity.
Qed.

(** ** Rollouts *)

Section RolloutFacts.

Variable py_float : string -> option Q.

(** What every applier of a rollout satisfies. *)
Let fixed (a : InterventionApplier) : Prop :=
  alignment_threshold (state_manager a) = 0.005 /\ shift_reward a = 0.0.

Lemma rollout_step_fixed (self : CausalMCTS)
    (acc : InterventionApplier * gset string * Q) (iv : Intervention) :
  fixed acc.1.1 -> fixed (rollout_step py_float self acc iv).1.1.
Proof.
  destruct acc as [[a prev] shaped], iv as [obj action].
  intros [Ht Hs]. unfold rollout_step.
  pose proof (apply_keeps py_float a obj action) as Hk. cbn zeta in Hk.
  destruct (apply py_float a obj action) as [[a' [success r]] out].
  cbn in *. destruct Hk as [Hs' Ht']. split; congruence.
Qed.

Lemma rollout_prefix_fixed (self : CausalMCTS) (ivs : list Intervention)
    (acc : InterventionApplier * gset string * Q) :
  fixed acc.1.1 -> fixed (fold_left (rollout_step py_float self) ivs acc).1.1.
Proof.
  revert acc. induction ivs as [|iv ivs IH]; intros acc H; cbn; [exact H|].
  apply IH, rollout_step_fixed, H.
Qed.

Lemma rollout_suffix_fixed (self : CausalMCTS) (node : MCTSNode)
    (budget : nat) (acc : InterventionApplier * gset string * Q)
    (history : list Intervention) (rng : RandomState) :
  fixed acc.1.1 ->
  fixed (rollout_suffix py_float self node budget acc history rng).1.1.1.1.
Proof.
  revert acc history rng.
  induction budget as [|budget IH]; intros acc history rng H; cbn;
    [exact H|].
  destruct (get_legal_actions self history node) as [|d valid]; [exact H|].
  apply IH, rollout_step_fixed, H.
Qed.

Lemma replay_fixed (a : InterventionApplier) (ivs : list Intervention) :
  fixed a -> fixed (replay py_float a ivs).
Proof.
  revert a. induction ivs as [|[obj action] ivs IH]; intros a H;
    [exact H|].
  cbn. apply IH. destruct H as [Ht Hs].
  destruct (apply_keeps py_float a obj action) as [Hs' Ht'].
  cbn zeta in Hs', Ht'. split; congruence.
Qed.

Lemma replay_app (a : InterventionApplier) (ivs1 ivs2 : list Intervention) :
  replay py_float a (ivs1 ++ ivs2)
  = replay py_float (replay py_float a ivs1) ivs2.
Proof. apply fold_left_app. Qed.

Lemma with_step_rewards_compat (shaper : RewardShaper)
    (ivs : list Intervention) :
  forall r r', r == r' ->
    with_step_rewards shaper r ivs == with_step_rewards shaper r' ivs.
Proof.
  induction ivs as [|iv ivs IH]; intros r r' H; [exact H|].
  cbn. apply IH. rewrite H. reflexivity.
Qed.

Lemma rollout_step_replay (self : CausalMCTS) (a : InterventionApplier)
    (prev : gset string) (r : Q) (iv : Intervention) :
  fixed a ->
  (rollout_step py_float self (a, prev, r) iv).1.1
  = (apply py_float a iv.1 iv.2).1.1 /\
  (rollout_step py_float self (a, prev, r) iv).2
  == r + RewardShaperOps.step_reward (reward_shaper self) ∅ ∅ iv.2.
Proof.
  intros [_ Hs]. destruct iv as [obj action].
  assert (Hz : (apply py_float a obj action).1.2.2 == 0)
    by (apply apply_reward_zero; rewrite Hs; reflexivity).
  unfold rollout_step. cbn [fst snd].
  destruct (apply py_float a obj action) as [[a' [success reward]] out].
  cbn in *. split; [reflexivity|].
  unfold RewardShaperOps.step_reward. rewrite Hz. ring.
Qed.

Lemma rollout_prefix_replay (self : CausalMCTS) (ivs : list Intervention) :
  forall (a : InterventionApplier) (prev : gset string) (r : Q),
    fixed a ->
    (fold_left (rollout_step py_float self) ivs (a, prev, r)).1.1
    = replay py_float a ivs /\
    (fold_left (rollout_step py_float self) ivs (a, prev, r)).2
    == with_step_rewards (reward_shaper self) r ivs.
Proof.
  induction ivs as [|iv ivs IH]; intros a prev r Hf.
  - split; reflexivity.
  - destruct (rollout_step_replay self a prev r iv Hf) as [Ha Hr].
    pose proof (rollout_step_fixed self (a, prev, r) iv Hf) as Hf'.
    cbn [fold_left].
    destruct (rollout_step py_float self (a, prev, r) iv)
      as [[a' prev'] r'].
    cbn [fst snd] in Ha, Hr, Hf'. destruct (IH a' prev' r' Hf') as [-> ->].
    subst a'. split; [destruct iv; reflexivity|].
    cbn [with_step_rewards fold_left].
    now apply with_step_rewards_compat.
Qed.

Lemma rollout_suffix_replay (self : CausalMCTS) (node : MCTSNode)
    (budget : nat) :
  forall (a : InterventionApplier) (prev : gset string) (r : Q)
         (h : list Intervention) (rng : RandomState),
    fixed a ->
    exists added,
      (rollout_suffix py_float self node budget (a, prev, r) h rng).1.2
      = (h ++ added)%list /\
      (rollout_suffix py_float self node budget (a, prev, r) h rng).1.1.1.1
      = replay py_float a added /\
      (rollout_suffix py_float self node budget (a, prev, r) h rng).1.1.2
      == with_step_rewards (reward_shaper self) r added.
Proof.
  induction budget as [|budget IH]; intros a prev r h rng Hf.
  - exists []. cbn. rewrite app_nil_r. repeat split; reflexivity.
  - cbn [rollout_suffix].
    destruct (get_legal_actions self h node) as [|d l].
    + exists []. cbn. rewrite app_nil_r. repeat split; reflexivity.
    + destruct (random_choice rng d (d :: l)) as [choice rng'].
      cbv beta iota.
      destruct (rollout_step_replay self a prev r choice Hf) as [Ha Hr].
      pose proof (rollout_step_fixed self (a, prev, r) choice Hf) as Hf'.
      destruct (rollout_step py_float self (a, prev, r) choice)
        as [[a' prev'] r'].
      cbn [fst snd] in Ha, Hr, Hf'.
      destruct (IH a' prev' r' (h ++ [choice])%list rng' Hf')
        as (added & Hh & Hap & Hrew).
      exists (choice :: added). rewrite Hh, Hap, Hrew, <- app_assoc.
      subst a'. split; [reflexivity|]. split; [destruct choice; reflexivity|].
      cbn [with_step_rewards fold_left].
      now apply with_step_rewards_compat.
Qed.

(** C10: a rollout is a replay on a state manager built from the initial
    state with the alignment threshold 0.005 and an applier with the
    shift reward 0.0, whatever the planner's configuration is.  The
    applier it ends with is this pair after the recorded sequence was
    applied to it; the returned reward is made of the shaper's step
    rewards, its final reward and the alignment bonus, all evaluated on
    the relationships and positions of that state manager, the applier
    itself adding nothing; and throughout, two objects count as aligned
    exactly when they are within 0.005 of each other on x and on y. *)
Theorem rollout_constants (self : CausalMCTS) (node : MCTSNode)
    (rng : RandomState) :
  let start :=
    {| state_manager := StateManagerOps.init (initial_state self) 0.005;
       shift_reward := 0.0 |} in
  let shaper := reward_shaper self in
  let prefix := interventions node in
  let at_prefix := state_manager (replay py_float start prefix) in
  let prefix_reward :=
    with_step_rewards shaper 0.0 prefix
    + RewardShaperOps.final_reward shaper
        (StateManagerOps.get_relationships at_prefix) prefix
    + misalignment_bonus at_prefix (length prefix) in
  let reward := (rollout_run py_float self node rng).1.1.1 in
  let finish := (rollout_run py_float self node rng).2 in
  exists added,
    reward_history (rollout_run py_float self node rng).1.1.2
    = (reward_history self ++ [((prefix ++ added)%list, reward)])%list /\
    finish = replay py_float start (prefix ++ added) /\
    alignment_threshold (state_manager finish) = 0.005 /\
    shift_reward finish = 0.0 /\
    (termination_threshold self <= prefix_reward ->
     added = [] /\ reward == prefix_reward) /\
    (~ termination_threshold self <= prefix_reward ->
     reward
     == with_step_rewards shaper prefix_reward added
        + RewardShaperOps.final_reward shaper
            (StateManagerOps.get_relationships (state_manager finish))
            (prefix ++ added)) /\
    (forall k obj action,
       (apply py_float (replay py_float start (take k (prefix ++ added)))
          obj action).1.2.2 == 0) /\
    (forall k a b pa pb,
       let sm :=
         state_manager (replay py_float start (take k (prefix ++ added))) in
       objects sm !! a = Some pa -> objects sm !! b = Some pb ->
       (StateManagerOps.check_alignment sm a b = true
        <-> within_threshold 0.005 pa pb)).
Proof.
  cbn zeta.
  set (start := {| state_manager :=
                     StateManagerOps.init (initial_state self) 0.005;
                   shift_reward := 0.0 |}).
  assert (Hstart : fixed start) by (split; reflexivity).
  assert (Hany : forall ivs, fixed (replay py_float start ivs))
    by (intros ivs; now apply replay_fixed).
  assert (Htail : forall added,
            (forall k obj action,
               (apply py_float
                  (replay py_float start
                     (take k (interventions node ++ added))) obj action).1.2.2
               == 0) /\
            (forall k a b pa pb,
               objects (state_manager
                          (replay py_float start
                             (take k (interventions node ++ added)))) !! a
               = Some pa ->
               objects (state_manager
                          (replay py_float start
                             (take k (interventions node ++ added)))) !! b
               = Some pb ->
               (StateManagerOps.check_alignment
                  (state_manager
                     (replay py_float start
                        (take k (interventions node ++ added)))) a b = true
                <-> within_threshold 0.005 pa pb))).
  { intros added. split.
    - intros k obj action. apply apply_reward_zero.
      destruct (Hany (take k (interventions node ++ added))) as [_ ->].
      reflexivity.
    - intros k a b pa pb Ha Hb.
      destruct (Hany (take k (interventions node ++ added))) as [Ht _].
      rewrite <- Ht. now apply check_alignment_spec. }
  unfold rollout_run. fold start. change (rollout_applier self) with start.
  destruct (rollout_prefix_replay self (interventions node) start
              (list_to_set (st_relationships (initial_state self))) 0.0
              Hstart) as [Ha Hr].
  destruct (fold_left (rollout_step py_float self) (interventions node) _)
    as [[a prev] shaped].
  cbn [fst snd] in Ha, Hr. subst a.
  set (at_prefix := state_manager (replay py_float start (interventions node)))
    in *.
  set (prefix_reward :=
         with_step_rewards (reward_shaper self) 0.0 (interventions node)
         + RewardShaperOps.final_reward (reward_shaper self)
             (StateManagerOps.get_relationships at_prefix)
             (interventions node)
         + misalignment_bonus at_prefix (length (interventions node))).
  assert (Hshaped :
            shaped
            + RewardShaperOps.final_reward (reward_shaper self)
                (StateManagerOps.get_relationships at_prefix)
                (interventions node)
            + misalignment_bonus at_prefix (length (interventions node))
            == prefix_reward)
    by (unfold prefix_reward; rewrite Hr; reflexivity).
  cbv zeta.
  destruct (Qle_bool (termination_threshold self) _) eqn:E.
  - apply Qle_bool_iff in E. rewrite Hshaped in E.
    exists []. cbn [fst snd]. rewrite app_nil_r.
    destruct (Hany (interventions node)) as [Ht Hs].
    destruct (Htail []) as [Hz Hal]. rewrite app_nil_r in Hz, Hal.
    split; [reflexivity|]. split; [reflexivity|].
    split; [exact Ht|]. split; [exact Hs|].
    split; [intros _; split; [reflexivity|exact Hshaped]|].
    split; [intros Hn; contradiction|]. split; [exact Hz|exact Hal].
  - assert (Hn : ~ termination_threshold self <= prefix_reward).
    { intros H. rewrite <- Hshaped in H. apply Qle_bool_iff in H.
      congruence. }
    match goal with
    | |- context [rollout_suffix py_float self node ?b ?acc ?h rng] =>
        destruct (rollout_suffix_replay self node b
                    (replay py_float start (interventions node)) prev
                    (shaped
                     + RewardShaperOps.final_reward (reward_shaper self)
                         (StateManagerOps.get_relationships at_prefix)
                         (interventions node)
                     + misalignment_bonus at_prefix
                         (length (interventions node)))
                    h rng (Hany _))
          as (added & Hh & Hap & Hrew);
        destruct (rollout_suffix py_float self node b acc h rng)
          as [[[[a' prev'] shaped'] h'] rng']
    end.
    cbn [fst snd] in Hh, Hap, Hrew. subst h' a'.
    exists added. cbn [fst snd]. rewrite replay_app.
    destruct (Hany (interventions node ++ added)%list) as [Ht Hs].
    rewrite replay_app in Ht, Hs.
    destruct (Htail added) as [Hz Hal].
    split; [reflexivity|]. split; [reflexivity|].
    split; [exact Ht|]. split; [exact Hs|].
    split; [intros H; contradiction|].
    split; [|split; [exact Hz|exact Hal]].
    intros _. rewrite Hrew.
    rewrite (with_step_rewards_compat _ _ _ _ Hshaped). reflexivity.
Qed.

End RolloutFacts.

(** ** Child selection *)

Section UCTFacts.

Import PrimFloat.
#[local] Set Warnings "-inexact-float".
#[local] Open Scope float_scope.

Variable math_log : nat -> float.
Variable math_sqrt : float -> float.







End UCTFacts.

Section UCTExamples.

Import PrimFloat.
#[local] Set Warnings "-inexact-float".
#[local] Open Scope float_scope.


End UCTExamples.


(** ** The arena *)

Lemma node_at_lookup (t : Tree) (i : nat) (n : MCTSNode) :
  t !! i = Some n -> node_at t i = n.
Proof. unfold node_at. now intros ->. Qed.

Lemma node_at_outside (t : Tree) (i : nat) :
  (length t <= i)%nat -> node_at t i = new_node [] None.
Proof.
  intros H. unfold node_at. now rewrite (lookup_ge_None_2 t i H).
Qed.

Lemma node_at_insert_eq (t : Tree) (i : nat) (n : MCTSNode) :
  (i < length t)%nat -> node_at (<[i := n]> t) i = n.
Proof.
  intros H. apply node_at_lookup. now apply list_lookup_insert_eq.
Qed.

Lemma node_at_insert_ne (t : Tree) (i j : nat) (n : MCTSNode) :
  i <> j -> node_at (<[i := n]> t) j = node_at t j.
Proof.
  intros H. unfold node_at. now rewrite list_lookup_insert_ne.
Qed.

Lemma node_at_app_l (t l : Tree) (i : nat) :
  (i < length t)%nat -> node_at (t ++ l) i = node_at t i.
Proof.
  intros H. unfold node_at. now rewrite lookup_app_l.
Qed.

Lemma node_at_app_new (t : Tree) (n : MCTSNode) :
  node_at (t ++ [n]) (length t) = n.
Proof.
  apply node_at_lookup. rewrite lookup_app_r, Nat.sub_diag by lia.
  reflexivity.
Qed.

Lemma same_shape_refl (n : MCTSNode) : same_shape n n.
Proof. repeat split. Qed.

Lemma shape_eq_refl (t : Tree) : shape_eq t t.
Proof. split; [reflexivity|intros i; apply same_shape_refl]. Qed.

Lemma shape_eq_trans (t1 t2 t3 : Tree) :
  shape_eq t1 t2 -> shape_eq t2 t3 -> shape_eq t1 t3.
Proof.
  intros [Hl1 H1] [Hl2 H2]. split; [congruence|].
  intros i. destruct (H1 i) as (? & ? & ?), (H2 i) as (? & ? & ?).
  repeat split; congruence.
Qed.

(** Replacing a node by one with the same place keeps the shape. *)
Lemma shape_eq_insert (t : Tree) (j : nat) (n : MCTSNode) :
  same_shape (node_at t j) n -> shape_eq t (<[j := n]> t).
Proof.
  intros Hs. split; [apply length_insert|].
  intros i. destruct (decide (j = i)) as [->|Hne].
  - destruct (decide (i < length t)%nat) as [Hlt|Hge].
    + now rewrite node_at_insert_eq.
    + rewrite list_insert_ge by lia. apply same_shape_refl.
  - rewrite node_at_insert_ne by exact Hne. apply same_shape_refl.
Qed.

Lemma wf_tree_shape_eq (t t' : Tree) :
  shape_eq t t' -> wf_tree t -> wf_tree t'.
Proof.
  intros [Hlen Hs] Hwf.
  assert (Hi : forall i, interventions (node_at t' i) = interventions (node_at t i))
    by (intros i; apply (Hs i)).
  assert (Hp : forall i, parent (node_at t' i) = parent (node_at t i))
    by (intros i; apply (Hs i)).
  assert (Hc : forall i, children (node_at t' i) = children (node_at t i))
    by (intros i; apply (Hs i)).
  destruct Hwf as [W1 W2 W3 W4 W5 W6 W7 W8]. split.
  - lia.
  - intros i c. rewrite Hc, Hlen. apply W2.
  - intros i p. rewrite Hp. apply W3.
  - intros i. rewrite Hlen. intros Hr. destruct (W4 i Hr) as (p & Hpp & Hin).
    exists p. now rewrite Hp, Hc.
  - intros i c. rewrite Hc, Hp. apply W5.
  - intros i. rewrite Hc. apply W6.
  - intros i. rewrite Hlen, Hi. apply W7.
  - now rewrite Hi.
Qed.

Lemma visits_eq_refl (t : Tree) : visits_eq t t.
Proof. intros i. reflexivity. Qed.

Lemma visits_eq_trans (t1 t2 t3 : Tree) :
  visits_eq t1 t2 -> visits_eq t2 t3 -> visits_eq t1 t3.
Proof. intros H1 H2 i. now rewrite H2, H1. Qed.

Lemma visits_eq_insert (t : Tree) (j : nat) (n : MCTSNode) :
  visits n = visits (node_at t j) -> visits_eq t (<[j := n]> t).
Proof.
  intros Hv i. destruct (decide (j = i)) as [->|Hne].
  - destruct (decide (i < length t)%nat) as [Hlt|Hge].
    + now rewrite node_at_insert_eq.
    + now rewrite list_insert_ge by lia.
  - now rewrite node_at_insert_ne.
Qed.

Lemma sum_visits_cons (t : Tree) (c : nat) (cs : list nat) :
  sum_visits t (c :: cs) = (visits (node_at t c) + sum_visits t cs)%nat.
Proof. reflexivity. Qed.

Lemma sum_visits_ext (t t' : Tree) (cs : list nat) :
  (forall c, c ∈ cs -> visits (node_at t' c) = visits (node_at t c)) ->
  sum_visits t' cs = sum_visits t cs.
Proof.
  induction cs as [|c cs IH]; intros H; [reflexivity|].
  rewrite !sum_visits_cons, H by set_solver. rewrite IH; [reflexivity|].
  intros c' Hin. apply H. set_solver.
Qed.

Lemma sum_visits_app (t : Tree) (cs1 cs2 : list nat) :
  sum_visits t (cs1 ++ cs2) = (sum_visits t cs1 + sum_visits t cs2)%nat.
Proof.
  induction cs1 as [|c cs1 IH]; [reflexivity|].
  rewrite <- app_comm_cons, !sum_visits_cons, IH. lia.
Qed.


(** ** Selection and expansion *)

Section SelectFacts.

Variable math_log : Q -> Q.
Variable math_sqrt : Q -> Q.






End SelectFacts.

Section ExpandFacts.

Variables (t : Tree) (node : nat) (u : option (list Intervention))
          (action : Intervention).
Hypothesis Hwf : wf_tree t.
Hypothesis Hnode : (node < length t)%nat.

(** The parent after [expand] attached a child to it, and the child. *)
Let n2 : MCTSNode :=
  set_children (set_untried_actions (node_at t node) u)
               (children (node_at t node) ++ [length t]).
Let fresh : MCTSNode :=
  new_node (interventions (node_at t node) ++ [action]) (Some node).
Let t' : Tree := <[node := n2]> t ++ [fresh].

Lemma add_child_length : length t' = S (length t).
Proof.
  unfold t'. rewrite length_app, length_insert. cbn. lia.
Qed.

Lemma add_child_at_new : node_at t' (length t) = fresh.
Proof.
  pose proof (node_at_app_new (<[node := n2]> t) fresh) as H.
  rewrite length_insert in H. exact H.
Qed.

Lemma add_child_at_node : node_at t' node = n2.
Proof.
  unfold t'. rewrite node_at_app_l by (rewrite length_insert; exact Hnode).
  now apply node_at_insert_eq.
Qed.

Lemma add_child_at_other (i : nat) :
  i <> node -> i <> length t -> node_at t' i = node_at t i.
Proof.
  intros H1 H2. destruct (decide (i < length t)%nat) as [Hlt|Hge].
  - unfold t'. rewrite node_at_app_l by (rewrite length_insert; exact Hlt).
    now apply node_at_insert_ne.
  - rewrite !node_at_outside; [reflexivity|lia|rewrite add_child_length; lia].
Qed.

(** Every index is the new child, the expanded node or an old node. *)
Lemma add_child_cases (i : nat) :
  (i = length t /\ node_at t' i = fresh)
  \/ (i = node /\ node_at t' i = n2)
  \/ (i <> length t /\ i <> node /\ node_at t' i = node_at t i).
Proof.
  destruct (decide (i = length t)) as [->|H1];
    [left; split; [reflexivity|apply add_child_at_new]|].
  destruct (decide (i = node)) as [->|H2];
    [right; left; split; [reflexivity|apply add_child_at_node]|].
  right; right. auto using add_child_at_other.
Qed.

Lemma add_child_same_shape (i : nat) :
  i <> length t ->
  interventions (node_at t' i) = interventions (node_at t i) /\
  parent (node_at t' i) = parent (node_at t i) /\
  (i <> node -> children (node_at t' i) = children (node_at t i)).
Proof.
  intros Hi. destruct (add_child_cases i) as [[? _]|[[-> ->]|(_ & ? & ->)]];
    [contradiction| |]; repeat split; intros; try reflexivity.
  contradiction.
Qed.

Lemma add_child_visits_eq : visits_eq t t'.
Proof.
  intros i. destruct (add_child_cases i) as [[-> ->]|[[-> ->]|(_ & _ & ->)]];
    try reflexivity.
  rewrite node_at_outside by lia. reflexivity.
Qed.

Lemma add_child_wf : wf_tree t'.
Proof.
  destruct Hwf as [W1 W2 W3 W4 W5 W6 W7 W8]. split.
  - rewrite add_child_length. lia.
  - intros i c. rewrite add_child_length.
    destruct (add_child_cases i) as [[-> ->]|[[-> ->]|(_ & _ & ->)]]; cbn.
    + intros Hin. inversion Hin.
    + rewrite elem_of_app, list_elem_of_singleton.
      intros [Hin| ->]; [apply W2 in Hin|]; lia.
    + intros Hin. apply W2 in Hin. lia.
  - intros i p.
    destruct (add_child_cases i) as [[-> ->]|[[-> ->]|(_ & _ & ->)]]; cbn.
    + intros [= <-]. exact Hnode.
    + apply W3.
    + apply W3.
  - intros i. rewrite add_child_length. intros Hi.
    destruct (decide (i = length t)) as [->|Hne].
    + exists node. rewrite add_child_at_new, add_child_at_node. cbn.
      split; [reflexivity|].
      apply elem_of_app. right. now apply list_elem_of_singleton.
    + destruct (W4 i) as (p & Hp & Hin); [lia|].
      exists p. destruct (add_child_same_shape i Hne) as (_ & -> & _).
      split; [exact Hp|].
      destruct (add_child_cases p) as [[-> _]|[[-> ->]|(_ & _ & ->)]].
      * apply W3 in Hp. lia.
      * cbn. apply elem_of_app. now left.
      * exact Hin.
  - intros i c.
    destruct (add_child_cases i) as [[-> ->]|[[-> ->]|(_ & Hi & ->)]]; cbn.
    + intros Hin. inversion Hin.
    + rewrite elem_of_app, list_elem_of_singleton. intros [Hin| ->].
      * pose proof (W2 _ _ Hin) as Hc.
        rewrite add_child_at_other by lia. now apply W5.
      * now rewrite add_child_at_new.
    + intros Hin. pose proof (W2 _ _ Hin) as Hc.
      destruct (add_child_same_shape c) as (_ & -> & _); [lia|].
      now apply W5.
  - intros i.
    destruct (add_child_cases i) as [[-> ->]|[[-> ->]|(_ & _ & ->)]]; cbn.
    + constructor.
    + apply NoDup_app. split; [apply W6|]. split; [|apply NoDup_singleton].
      intros c Hin Hc. apply list_elem_of_singleton in Hc.
      apply W2 in Hin. lia.
    + apply W6.
  - intros i. rewrite add_child_length. intros Hi.
    destruct (add_child_cases i) as [[-> ->]|[[-> ->]|(? & _ & ->)]]; cbn.
    + intros H. now apply app_eq_nil in H as [_ H].
    + apply W7. lia.
    + apply W7. lia.
  - destruct (add_child_same_shape 0) as (-> & _); [lia|exact W8].
Qed.

Lemma add_child_root_children_visits :
  root_children_visits t' = root_children_visits t.
Proof.
  unfold root_children_visits.
  pose proof add_child_visits_eq as Hv.
  destruct (decide (node = 0%nat)) as [Heq|Hne].
  - pose proof add_child_at_node as Hn2. rewrite Heq in Hn2. rewrite Hn2.
    unfold n2. cbn [children set_children]. rewrite Heq.
    rewrite sum_visits_app, (sum_visits_ext t t') by (intros; apply Hv).
    rewrite sum_visits_cons, add_child_at_new. cbn. lia.
  - pose proof (wf_nonempty t Hwf).
    rewrite add_child_at_other by lia.
    apply sum_visits_ext. intros; apply Hv.
Qed.

End ExpandFacts.

Lemma root_children_visits_eq (t t' : Tree) :
  shape_eq t t' -> visits_eq t t' ->
  root_children_visits t' = root_children_visits t.
Proof.
  intros [_ Hs] Hv. unfold root_children_visits.
  destruct (Hs 0%nat) as (_ & _ & ->). apply sum_visits_ext.
  intros c _. apply Hv.
Qed.

Lemma expand_spec (self : CausalMCTS) (t : Tree) (node : nat) :
  wf_tree t -> (node < length t)%nat ->
  wf_tree (expand self t node).1 /\
  visits_eq t (expand self t node).1 /\
  root_children_visits (expand self t node).1 = root_children_visits t /\
  ((expand self t node).2 < length (expand self t node).1)%nat.
Proof.
  intros Hwf Hnode. unfold expand.
  set (t1 := match untried_actions (node_at t node) with
             | Some _ => t
             | None => _
             end).
  assert (H1 : shape_eq t t1 /\ visits_eq t t1).
  { unfold t1. destruct (untried_actions (node_at t node)).
    - auto using shape_eq_refl, visits_eq_refl.
    - split; [apply shape_eq_insert|apply visits_eq_insert]; repeat split. }
  destruct H1 as [Hs1 Hv1].
  pose proof (wf_tree_shape_eq _ _ Hs1 Hwf) as Hwf1.
  pose proof (root_children_visits_eq _ _ Hs1 Hv1) as Hr1.
  assert (Hnode1 : (node < length t1)%nat) by (destruct Hs1 as [-> _]; lia).
  cbn zeta.
  destruct (untried_actions (node_at t1 node)) as [[|action rest]|];
    cbn [fst snd];
    try (split; [assumption|split; [assumption|split; assumption]]).
  split; [now apply add_child_wf|].
  split; [exact (visits_eq_trans _ _ _ Hv1
                   (add_child_visits_eq t1 node _ action Hnode1))|].
  split; [rewrite add_child_root_children_visits by assumption; exact Hr1|].
  rewrite add_child_length by assumption. lia.
Qed.

(** ** Backpropagation *)

Lemma backpropagate_step (t : Tree) (i : nat) (reward : Q) :
  (i < length t)%nat ->
  let n := record_visit (node_at t i) reward in
  let t1 := <[i := n]> t in
  let t2 := match parent n with
            | Some p =>
                <[p := update_violations (node_at t1 p) (local_violations n)]> t1
            | None => t1
            end in
  shape_eq t t2 /\
  visits (node_at t2 i) = S (visits (node_at t i)) /\
  forall j, j <> i -> visits (node_at t2 j) = visits (node_at t j).
Proof.
  intros Hi n t1 t2.
  assert (Hs1 : shape_eq t t1) by (apply shape_eq_insert; repeat split).
  assert (H2 : shape_eq t1 t2 /\ visits_eq t1 t2).
  { unfold t2. destruct (parent n).
    - split; [apply shape_eq_insert|apply visits_eq_insert]; repeat split.
    - auto using shape_eq_refl, visits_eq_refl. }
  destruct H2 as [Hs2 Hv2].
  split; [exact (shape_eq_trans _ _ _ Hs1 Hs2)|]. split.
  - rewrite Hv2. unfold t1. now rewrite node_at_insert_eq.
  - intros j Hj. rewrite Hv2. unfold t1. now rewrite node_at_insert_ne.
Qed.


(** ** One iteration *)

Section IterationFacts.

Variable py_float : string -> option Q.
Variable math_log : Q -> Q.
Variable math_sqrt : Q -> Q.



End IterationFacts.

(** ** Runs of the main loop *)


Lemma initial_tree_wf (self : CausalMCTS) : wf_tree (initial_tree self).
Proof.
  assert (Hat : forall i,
             children (node_at (initial_tree self) i) = []
             /\ parent (node_at (initial_tree self) i) = None
             /\ interventions (node_at (initial_tree self) i) = []).
  { intros [|i]; repeat split. }
  split; cbn [length initial_tree].
  - lia.
  - intros i c. destruct (Hat i) as (-> & _). intros H. inversion H.
  - intros i p. destruct (Hat i) as (_ & -> & _). discriminate.
  - intros i Hi. lia.
  - intros i c. destruct (Hat i) as (-> & _). intros H. inversion H.
  - intros i. destruct (Hat i) as (-> & _). constructor.
  - intros i Hi. lia.
  - reflexivity.
Qed.

Section RunFacts.

Variable py_float : string -> option Q.
Variable math_log : Q -> Q.
Variable math_sqrt : Q -> Q.



End RunFacts.


(** ** The whole search *)



Section SearchFacts.

Variable py_float : string -> option Q.
Variable math_log : Q -> Q.
Variable math_sqrt : Q -> Q.





End SearchFacts.

(** ** What the phases leave alone *)

Lemma node_at_insert_cases (t : Tree) (j i : nat) (n : MCTSNode) :
  (i = j /\ node_at (<[j := n]> t) i = n)
  \/ node_at (<[j := n]> t) i = node_at t i.
Proof.
  destruct (decide (j = i)) as [->|Hne].
  - destruct (decide (i < length t)%nat) as [Hlt|Hge].
    + left. split; [reflexivity|now apply node_at_insert_eq].
    + right. now rewrite list_insert_ge by lia.
  - right. now apply node_at_insert_ne.
Qed.

Lemma lazily_initialised_refl (self : CausalMCTS) (n : MCTSNode) :
  lazily_initialised self n n.
Proof. now left. Qed.



Section FrameFacts.

Variable py_float : string -> option Q.
Variable math_log : Q -> Q.
Variable math_sqrt : Q -> Q.




End FrameFacts.

(** ** The end-to-end scenario *)

Section ScenarioFacts.

Import Scenario8.

Variable math_log : Q -> Q.
Variable math_sqrt : Q -> Q.
Variables (b : Q) (d : Z) (c : Q).























End ScenarioFacts.


(** ** The statements at concrete inputs *)

Lemma apply_shift_correct_witness :
  is_Some (objects scenario_state_manager !! "1") /\
  ((StateManagerOps.apply_shift scenario_state_manager "1" "left" 0.01).1.2
   = true /\
   moved_by scenario_state_manager
     (StateManagerOps.apply_shift scenario_state_manager "1" "left" 0.01).1.1
     "1" (- 0.01) 0) /\
  objects scenario_state_manager !! "9" = None /\
  (StateManagerOps.apply_shift scenario_state_manager "9" "left" 0.01).1
  = (scenario_state_manager, false).
Proof.
  assert (H1 : is_Some (objects scenario_state_manager !! "1"))
    by (eexists; vm_compute; reflexivity).
  assert (H9 : objects scenario_state_manager !! "9" = None)
    by (vm_compute; reflexivity).
  split; [exact H1|]. split; [|split; [exact H9|]].
  - destruct (apply_shift_correct scenario_state_manager "1" "left" 0.01)
      as [H _].
    destruct (H H1) as [Hleft _]. exact (Hleft eq_refl).
  - destruct (apply_shift_correct scenario_state_manager "9" "left" 0.01)
      as [_ H].
    apply H. left. exact H9.
Defined.

Lemma get_relationships_correct_witness :
  "On(" ++ "1" ++ "," ++ "0" ++ ")" ∈ relationships scenario_state_manager /\
  ("On(" ++ "1" ++ "," ++ "0" ++ ")"
     ∈ StateManagerOps.get_relationships scenario_state_manager <->
   within_threshold 0.05 (mkPosition 0.02 0 0) (mkPosition 0 0 0)).
Proof.
  assert (Hin : "On(" ++ "1" ++ "," ++ "0" ++ ")"
                ∈ relationships scenario_state_manager)
    by (apply elem_of_list_to_set; left).
  split; [exact Hin|].
  destruct (get_relationships_correct scenario_state_manager) as (_ & H & _).
  apply (H "1" "0" (mkPosition 0.02 0 0) (mkPosition 0 0 0)).
  - cbn. split; [discriminate|exact I].
  - cbn. split; [discriminate|exact I].
  - exact Hin.
  - vm_compute. reflexivity.
  - vm_compute. reflexivity.
Defined.

Lemma final_reward_depth_witness :
  0 <= depth_penalty scenario_shaper /\
  RewardShaperOps.final_reward scenario_shaper ∅
    ([("1", "left,0.01")] ++ [("1", "right,0.01")])
  <= RewardShaperOps.final_reward scenario_shaper ∅ [("1", "left,0.01")] /\
  depth_penalty test_shaper == 0 /\
  RewardShaperOps.final_reward test_shaper ∅
    ([("1", "left,0.01")] ++ [("1", "right,0.01")])
  == RewardShaperOps.final_reward test_shaper ∅ [("1", "left,0.01")] /\
  RewardShaperOps.final_reward scenario_shaper ∅ [("1", "left,0.01")] < 0.
Proof.
  assert (Hpos : 0 <= depth_penalty scenario_shaper) by discriminate.
  assert (Hlt : 0 < depth_penalty scenario_shaper) by reflexivity.
  assert (Hz : depth_penalty test_shaper == 0) by reflexivity.
  destruct (final_reward_depth scenario_shaper ∅ [("1", "left,0.01")])
    as (_ & Hle & _ & Hneg).
  destruct (final_reward_depth test_shaper ∅ [("1", "left,0.01")])
    as (_ & _ & Heq & _).
  split; [exact Hpos|]. split; [exact (Hle Hpos _)|].
  split; [exact Hz|]. split; [exact (Heq Hz _)|].
  apply (Hneg Hlt); [| |discriminate].
  - intros H. apply (f_equal size) in H. vm_compute in H. discriminate.
  - apply intersection_empty_l_L.
Defined.

Lemma unsupported_kinds_fail_like_parse_failure_witness :
  PyStr.contains "," "1, 2" = true /\
  any_shift_token "1, 2" = false /\
  apply Decimal.float scenario_applier "Swap" "1, 2"
  = (scenario_applier, (false, 0),
     ["[InterventionApplier] Swap not yet implemented"]).
Proof.
  split; [reflexivity|]. split; [reflexivity|].
  destruct (unsupported_kinds_fail_like_parse_failure Decimal.float
              scenario_applier) as (H & _).
  apply H; reflexivity.
Defined.






Lemma rollout_constants_witness :
  scenario_rollout.1.1.1 == - 0.1 /\
  reward_history scenario_rollout.1.1.2
  = [([("1", "left,0.01")], scenario_rollout.1.1.1)] /\
  objects (state_manager scenario_rollout.2) !! "1"
  = Some (mkPosition (0.02 + - 0.01) (0 + 0) (0 + 0)) /\
  objects (state_manager scenario_rollout.2) !! "0"
  = Some (mkPosition 0 0 0) /\
  within_threshold 0.05 (mkPosition (0.02 + - 0.01) (0 + 0) (0 + 0))
    (mkPosition 0 0 0) /\
  ~ within_threshold 0.005 (mkPosition (0.02 + - 0.01) (0 + 0) (0 + 0))
      (mkPosition 0 0 0) /\
  StateManagerOps.check_alignment (state_manager scenario_rollout.2) "1" "0"
  = false /\
  (apply Decimal.float scenario_rollout.2 "1" "right,0.01").1.2
  = (true, 0.0).
Proof.
  assert (H1 : objects (state_manager scenario_rollout.2) !! "1"
               = Some (mkPosition (0.02 + - 0.01) (0 + 0) (0 + 0)))
    by (vm_compute; reflexivity).
  assert (H0 : objects (state_manager scenario_rollout.2) !! "0"
               = Some (mkPosition 0 0 0))
    by (vm_compute; reflexivity).
  assert (Hfar : ~ within_threshold 0.005
                     (mkPosition (0.02 + - 0.01) (0 + 0) (0 + 0))
                     (mkPosition 0 0 0))
    by (intros [H _]; vm_compute in H; discriminate H).
  assert (Hend : scenario_rollout.2
                 = replay Decimal.float
                     {| state_manager :=
                          StateManagerOps.init (initial_state scenario_planner)
                            0.005;
                        shift_reward := 0.0 |}
                     [("1", "left,0.01")])
    by (vm_compute; reflexivity).
  split; [vm_compute; reflexivity|]. split; [vm_compute; reflexivity|].
  split; [exact H1|]. split; [exact H0|].
  split; [split; vm_compute; reflexivity|]. split; [exact Hfar|].
  split; [|vm_compute; reflexivity].
  destruct (rollout_constants Decimal.float scenario_planner
              (new_node [("1", "left,0.01")] (Some 0%nat)) Scenario8.rng0)
    as (added & _ & _ & _ & _ & _ & _ & _ & Hal).
  specialize (Hal 1%nat "1" "0" (mkPosition (0.02 + - 0.01) (0 + 0) (0 + 0))
                (mkPosition 0 0 0)).
  change (take 1 (interventions (new_node [("1", "left,0.01")] (Some 0%nat))
                  ++ added))
    with [("1", "left,0.01")] in Hal.
  rewrite <- Hend in Hal. 
  specialize (Hal H1 H0).
  destruct (StateManagerOps.check_alignment (state_manager scenario_rollout.2) "1" "0"); [|reflexivity].
  exfalso. apply Hfar, Hal. reflexivity.
Defined.


(** * Further properties of the code *)

(** ** Parsing and applying actions *)

Section ParseFacts.

Variable py_float : string -> option Q.

Lemma valid_direction_cases (direction : string) :
  direction ∈ valid_directions ->
  direction = "left" \/ direction = "right" \/ direction = "forward"
  \/ direction = "back".
Proof.
  unfold valid_directions. intros H.
  repeat (apply elem_of_cons in H as [H|H]; [auto|]). inversion H.
Qed.

Lemma valid_direction_existsb (direction : string) :
  existsb (String.eqb direction) valid_directions = true <->
  direction ∈ valid_directions.
Proof.
  rewrite existsb_exists. split.
  - intros (d & Hin & Heq). apply String.eqb_eq in Heq. subst d.
    now apply list_elem_of_In.
  - intros Hin. exists direction. split; [now apply list_elem_of_In|].
    apply String.eqb_refl.
Qed.

Lemma parse_action_valid_direction (action direction : string) (q : Q) :
  parse_action py_float action = Some (direction, q) ->
  direction ∈ valid_directions.
Proof.
  unfold parse_action.
  destruct (PyStr.split PyStr.comma action) as [|p0 [|p1 [|p2 ps]]];
    try discriminate.
  destruct (py_float (PyStr.strip p1)) as [magnitude|]; [|discriminate].
  destruct (existsb _ valid_directions) eqn:Hv; [|discriminate].
  intros [= <- <-]. now apply valid_direction_existsb.
Qed.

(** X1: a descriptor made of one of the four directions, a comma and a
    text the builtin [float] accepts parses to that direction and that
    number. *)
Theorem parse_action_round_trip (direction m : string) (q : Q) :
  direction ∈ valid_directions ->
  PyStr.no_char PyStr.comma m ->
  py_float (PyStr.strip m) = Some q ->
  parse_action py_float (direction ++ "," ++ m) = Some (direction, q).
Proof.
  intros Hd Hm Hq. unfold parse_action.
  assert (Hsplit : PyStr.split PyStr.comma (direction ++ "," ++ m)
                   = [direction; m]).
  { rewrite append_cons, append_nil_l. apply split_two_fields; [|exact Hm].
    destruct (valid_direction_cases direction Hd) as [-> | [-> | [-> | ->]]];
      cbn; repeat split; discriminate. }
  rewrite Hsplit.
  assert (Hstrip : PyStr.strip direction = direction)
    by (destruct (valid_direction_cases direction Hd) as [-> | [-> | [-> | ->]]];
        reflexivity).
  rewrite Hstrip, Hq.
  apply valid_direction_existsb in Hd. now rewrite Hd.
Qed.

(** X2: whatever [parse_action] accepts has exactly two comma-separated
    fields, a first field that is one of the four directions once
    stripped, and a second field the builtin [float] accepts; in
    particular a text without a comma or with two commas is rejected. *)
Theorem parse_action_sound (action direction : string) (q : Q) :
  parse_action py_float action = Some (direction, q) ->
  direction ∈ valid_directions /\
  exists part0 part1,
    PyStr.split PyStr.comma action = [part0; part1] /\
    PyStr.strip part0 = direction /\
    py_float (PyStr.strip part1) = Some q.
Proof.
  unfold parse_action.
  destruct (PyStr.split PyStr.comma action) as [|p0 [|p1 [|p2 ps]]];
    try discriminate.
  destruct (py_float (PyStr.strip p1)) as [magnitude|] eqn:Hf;
    [|discriminate].
  destruct (existsb _ valid_directions) eqn:Hv; [|discriminate].
  intros [= <- <-]. split; [now apply valid_direction_existsb|].
  exists p0, p1. auto.
Qed.

(** X3: an intervention that reports failure has changed nothing in the
    applier or its state manager and carries the reward 0, whichever of
    the branches of [apply] rejected it. *)
Theorem apply_failure_changes_nothing (self : InterventionApplier)
    (obj action : string) :
  (apply py_float self obj action).1.2.1 = false ->
  (apply py_float self obj action).1.1 = self /\
  (apply py_float self obj action).1.2.2 = 0.
Proof.
  unfold apply, _apply_shift, _apply_swap, _apply_pick_place.
  repeat match goal with
         | |- context [if ?b then _ else _] => destruct b
         end; try (intros _; split; reflexivity).
  destruct (parse_action py_float action) as [[direction magnitude]|];
    [|intros _; split; reflexivity].
  unfold StateManagerOps.apply_shift.
  destruct (objects (state_manager self) !! obj);
    [|intros _; destruct self; split; reflexivity].
  destruct (StateManagerOps.direction_vectors magnitude direction)
    as [[[dx dy] dz]|]; cbn; [discriminate|].
  intros _. destruct self. split; reflexivity.
Qed.

(** X4: an intervention reports success only for a shift descriptor that
    parses and an object the state manager knows; its reward is then the
    configured shift reward, the state manager is the one [apply_shift]
    produces, and nothing is printed. *)
Theorem apply_success_is_a_shift (self : InterventionApplier)
    (obj action : string) :
  (apply py_float self obj action).1.2.1 = true ->
  exists direction magnitude,
    parse_action py_float action = Some (direction, magnitude) /\
    is_Some (objects (state_manager self) !! obj) /\
    apply py_float self obj action
    = ({| state_manager :=
            (StateManagerOps.apply_shift (state_manager self) obj direction
               magnitude).1.1;
          shift_reward := shift_reward self |},
       (true, shift_reward self), []).
Proof.
  unfold apply, _apply_shift, _apply_swap, _apply_pick_place.
  repeat match goal with
         | |- context [if ?b then _ else _] => destruct b
         end; try discriminate.
  destruct (parse_action py_float action) as [[direction magnitude]|] eqn:Hp;
    [|discriminate].
  pose proof (parse_action_valid_direction action direction magnitude Hp)
    as Hd.
  unfold StateManagerOps.apply_shift.
  destruct (objects (state_manager self) !! obj) as [p|] eqn:Ho;
    [|discriminate].
  rewrite direction_vectors_tokens.
  destruct (valid_direction_cases direction Hd) as [-> | [-> | [-> | ->]]];
    cbn; intros _; do 2 eexists;
    (split; [reflexivity|split; [eauto|reflexivity]]).
Qed.

End ParseFacts.

(** ** More on the state manager *)

Section StateManagerMore.

Import StateManagerOps.

(** X5: a shift never adds or removes a tracked object and never forgets
    an intervened object; a successful shift records its object as
    intervened. *)
Theorem apply_shift_keeps_object_set (self : StateManager)
    (obj direction : string) (m : Q) :
  dom (objects (apply_shift self obj direction m).1.1) = dom (objects self) /\
  intervened_objects self
  ⊆ intervened_objects (apply_shift self obj direction m).1.1 /\
  ((apply_shift self obj direction m).1.2 = true ->
   obj ∈ intervened_objects (apply_shift self obj direction m).1.1).
Proof.
  unfold apply_shift.
  destruct (objects self !! obj) as [p|] eqn:Ho;
    [|cbn; split; [reflexivity|split; [reflexivity|discriminate]]].
  destruct (direction_vectors m direction) as [[[dx dy] dz]|];
    cbn; [|split; [reflexivity|split; [reflexivity|discriminate]]].
  split; [|split; [set_solver|set_solver]].
  rewrite dom_insert_L. apply (elem_of_dom_2 (objects self)) in Ho.
  set_solver.
Qed.

(** X6: resetting a state manager, after any sequence of method calls,
    gives back exactly the state manager its constructor built. *)
Theorem reset_restores_construction (initial_state : InitialState)
    (threshold : Q) (cs : list StateManagerCall) :
  reset_to_initial (run_calls (init initial_state threshold) cs)
  = init initial_state threshold.
Proof.
  destruct (run_calls_keeps cs (init initial_state threshold))
    as (Hr & Hi & Ht).
  unfold reset_to_initial. rewrite Hr, Hi, Ht. reflexivity.
Qed.

(** X7: shifts of two different objects commute: in either order they
    leave the same state manager. *)
Theorem shifts_of_different_objects_commute (self : StateManager)
    (obj1 dir1 obj2 dir2 : string) (m1 m2 : Q) :
  obj1 <> obj2 ->
  (apply_shift (apply_shift self obj1 dir1 m1).1.1 obj2 dir2 m2).1.1
  = (apply_shift (apply_shift self obj2 dir2 m2).1.1 obj1 dir1 m1).1.1.
Proof.
  intros Hne. unfold apply_shift.
  destruct (objects self !! obj1) as [p1|] eqn:H1;
    destruct (objects self !! obj2) as [p2|] eqn:H2;
    destruct (direction_vectors m1 dir1) as [[[dx1 dy1] dz1]|];
    destruct (direction_vectors m2 dir2) as [[[dx2 dy2] dz2]|];
    cbn; rewrite ?lookup_insert_ne by congruence; rewrite ?H1, ?H2; cbn;
    try reflexivity.
  f_equal.
  - apply insert_insert_ne. congruence.
  - set_solver.
Qed.

(** X8: alignment is symmetric in its two objects, and an object the
    state manager does not know is aligned with nothing, hence always
    reported as misaligned. *)
Theorem check_alignment_symmetric (self : StateManager) (a b : string) :
  check_alignment self a b = check_alignment self b a /\
  (objects self !! a = None -> check_misalignment self a b = true) /\
  (objects self !! b = None -> check_misalignment self a b = true).
Proof.
  unfold check_misalignment, check_alignment. split; [|split].
  - destruct (objects self !! a) as [pa|], (objects self !! b) as [pb|];
      try reflexivity. cbn zeta.
    now rewrite (Qabs_Qminus (pos_x pa)), (Qabs_Qminus (pos_y pa)).
  - now intros ->.
  - intros ->. now destruct (objects self !! a).
Qed.

Lemma fraction_bounds (a t : nat) :
  (a <= t)%nat -> (0 < t)%nat ->
  0 <= inject_Z (Z.of_nat a) / inject_Z (Z.of_nat t) <= 1.
Proof.
  intros Hle Ht.
  assert (Hpos : 0 < inject_Z (Z.of_nat t)) by (apply (Qnat_pos t Ht)).
  split.
  - apply Qle_shift_div_l; [exact Hpos|]. rewrite Qmult_0_l.
    change 0 with (inject_Z 0). rewrite <- Zle_Qle. lia.
  - apply Qle_shift_div_r; [exact Hpos|]. rewrite Qmult_1_l.
    rewrite <- Zle_Qle. lia.
Qed.

(** X9: the alignment score is a fraction between 0 and 1, and it is 1
    for an empty goal. *)
Theorem alignment_score_bounds (self : StateManager) (goal : gset string) :
  0 <= get_alignment_score self goal <= 1 /\
  (goal = ∅ -> get_alignment_score self goal = 1).
Proof.
  unfold get_alignment_score. split.
  - destruct (size goal =? 0)%nat eqn:E; [split; discriminate|].
    apply Nat.eqb_neq in E. apply fraction_bounds; [|lia].
    apply subseteq_size. set_solver.
  - intros ->. reflexivity.
Qed.

(** X10: the critical relationships are declared relationships that
    start with [On(], and a declared [On(U,L)] whose two fields are
    non-empty digit strings is critical. *)
Theorem critical_relationships_are_declared_on (self : StateManager) :
  get_critical_relationships self ⊆ relationships self /\
  (forall rel, rel ∈ get_critical_relationships self ->
     String.prefix "On(" rel = true) /\
  (forall u l,
     PyStr.isdigit u = true -> PyStr.isdigit l = true ->
     PyStr.strip u = u -> PyStr.strip l = l ->
     PyStr.no_char PyStr.comma u -> PyStr.no_char PyStr.comma l ->
     "On(" ++ u ++ "," ++ l ++ ")" ∈ relationships self ->
     "On(" ++ u ++ "," ++ l ++ ")" ∈ get_critical_relationships self).
Proof.
  unfold get_critical_relationships. split; [|split].
  - intros rel. rewrite elem_of_filter. tauto.
  - intros rel. rewrite elem_of_filter. unfold is_critical.
    intros [H _]. now destruct (String.prefix "On(" rel).
  - intros u l Hu Hl Hsu Hsl Hcu Hcl Hin. apply elem_of_filter.
    split; [|exact Hin]. unfold is_critical.
    destruct (on_predicate_fields u l Hcu Hcl) as [-> ->]. cbn zeta.
    now rewrite Hsu, Hsl, Hu, Hl.
Qed.

(** X11: the displacement of an object the state manager does not know
    is 0.0; for a known object of a freshly constructed or reset state
    manager it is the square root of an argument equal to zero. *)
Theorem displacement_of_unmoved_objects (math_sqrt : Q -> Q)
    (self : StateManager) (obj : string) :
  (objects self !! obj = None ->
   compute_displacement math_sqrt self obj = 0.0) /\
  (is_Some (initial_objects self !! obj) ->
   exists arg,
     compute_displacement math_sqrt (reset_to_initial self) obj
     = math_sqrt arg /\ arg == 0).
Proof.
  unfold compute_displacement. split.
  - now intros ->.
  - intros [p Hp]. cbn [reset_to_initial objects initial_objects].
    rewrite Hp. cbn zeta. eexists. split; [reflexivity|].
    assert (Hz : forall x : Q, (x - x) ^ 2 == 0)
      by (intros x; change ((x - x) ^ 2) with ((x - x) * (x - x)); ring).
    rewrite !Hz. reflexivity.
Qed.

End StateManagerMore.

(** ** Substrings, and the actions both modules recognise *)

Lemma prefix_append (needle post : string) :
  String.prefix needle (needle ++ post) = true.
Proof.
  induction needle as [|c needle IH].
  - rewrite append_nil_l. apply prefix_empty.
  - rewrite append_cons. simpl.
    destruct (ascii_dec c c); [exact IH|congruence].
Qed.

Lemma contains_unfold (needle s : string) :
  PyStr.contains needle s
  = String.prefix needle s ||
    match s with
    | EmptyString => false
    | String _ s' => PyStr.contains needle s'
    end.
Proof. destruct s; reflexivity. Qed.

Lemma contains_intro (needle pre post : string) :
  PyStr.contains needle (pre ++ needle ++ post) = true.
Proof.
  induction pre as [|c pre IH].
  - rewrite append_nil_l, contains_unfold. now rewrite prefix_append.
  - rewrite append_cons, contains_unfold. rewrite IH. apply orb_true_r.
Qed.

Lemma lstrip_suffix (s : string) : exists ws, s = ws ++ PyStr.lstrip s.
Proof.
  induction s as [|c s [ws IH]]; simpl.
  - now exists "".
  - destruct (PyStr.is_space c).
    + exists (String c ws). now rewrite append_cons, <- IH.
    + now exists "".
Qed.

Lemma rstrip_prefix (s : string) : exists ws, s = PyStr.rstrip s ++ ws.
Proof.
  induction s as [|c s [ws IH]]; simpl.
  - now exists "".
  - destruct (PyStr.rstrip s) as [|d r] eqn:E.
    + destruct (PyStr.is_space c).
      * exists (String c s). now rewrite append_nil_l.
      * exists ws. rewrite append_cons, append_nil_l.
        rewrite append_nil_l in IH. now rewrite <- IH.
    + exists ws. now rewrite append_cons, <- IH.
Qed.

Lemma strip_substring (s : string) :
  exists pre post, s = pre ++ PyStr.strip s ++ post.
Proof.
  destruct (lstrip_suffix s) as [pre Hpre].
  destruct (rstrip_prefix (PyStr.lstrip s)) as [post Hpost].
  exists pre, post. unfold PyStr.strip. now rewrite <- Hpost.
Qed.

Lemma split_one (sep : ascii) (s p : string) :
  PyStr.split sep s = [p] -> s = p.
Proof.
  revert p. induction s as [|c s IH]; simpl; intros p; [congruence|].
  destruct (Ascii.eqb c sep).
  - destruct s as [|d s]; simpl; [discriminate|].
    destruct (Ascii.eqb d sep); [discriminate|].
    destruct (PyStr.split sep s); discriminate.
  - destruct (PyStr.split sep s) as [|f fs] eqn:E.
    + destruct s as [|d s]; simpl in E; [discriminate|].
      destruct (Ascii.eqb d sep); [discriminate|].
      destruct (PyStr.split sep s); discriminate.
    + intros [= <- ->]. f_equal. now apply IH.
Qed.

Lemma split_two_join (sep : ascii) (s p0 p1 : string) :
  PyStr.split sep s = [p0; p1] -> s = p0 ++ String sep p1.
Proof.
  revert p0. induction s as [|c s IH]; simpl; intros p0; [discriminate|].
  destruct (Ascii.eqb_spec c sep) as [->|Hne].
  - intros [= <- Hs]. rewrite append_nil_l. f_equal. now apply (split_one sep).
  - destruct (PyStr.split sep s) as [|f fs] eqn:E.
    + discriminate.
    + intros [= <- ->]. rewrite append_cons. f_equal. now apply IH.
Qed.

Section Dispatch.

Variable py_float : string -> option Q.

Lemma parsed_action_tokens (action direction : string) (q : Q) :
  parse_action py_float action = Some (direction, q) ->
  PyStr.contains "," action = true /\ any_shift_token action = true.
Proof.
  intros Hp. pose proof (parse_action_valid_direction _ _ _ _ Hp) as Hd.
  revert Hp. unfold parse_action.
  destruct (PyStr.split PyStr.comma action) as [|p0 [|p1 [|p2 ps]]] eqn:Hs;
    try discriminate.
  destruct (py_float (PyStr.strip p1)) as [magnitude|]; [|discriminate].
  destruct (existsb _ valid_directions); [|discriminate].
  intros [= Hdir _]. apply split_two_join in Hs.
  destruct (strip_substring p0) as (pre & post & Hp0). rewrite Hdir in Hp0.
  split.
  - rewrite Hs. apply (contains_intro "," p0 p1).
  - unfold any_shift_token. apply existsb_exists. exists direction.
    split; [now apply list_elem_of_In|].
    rewrite Hs, Hp0, !append_assoc. apply contains_intro.
Qed.

(** X12: whatever [parse_action] accepts is dispatched by [apply] to the
    shift branch: on an object the state manager knows the intervention
    succeeds with the configured shift reward and the state manager
    [apply_shift] produces; on an unknown object it fails and the applier
    is unchanged. *)
Theorem parsed_action_applies_as_shift (self : InterventionApplier)
    (obj action direction : string) (magnitude : Q) :
  parse_action py_float action = Some (direction, magnitude) ->
  (is_Some (objects (state_manager self) !! obj) ->
   (apply py_float self obj action).1
   = ({| state_manager :=
           (StateManagerOps.apply_shift (state_manager self) obj direction
              magnitude).1.1;
         shift_reward := shift_reward self |},
      (true, shift_reward self))) /\
  (objects (state_manager self) !! obj = None ->
   (apply py_float self obj action).1 = (self, (false, 0))).
Proof.
  intros Hp. destruct (parsed_action_tokens _ _ _ Hp) as [Hc Ht].
  pose proof (parse_action_valid_direction _ _ _ _ Hp) as Hd.
  unfold apply, _apply_shift. rewrite Hc, Ht, Hp. cbn [andb].
  unfold StateManagerOps.apply_shift. split.
  - intros [p Ho]. rewrite Ho, direction_vectors_tokens.
    destruct (valid_direction_cases direction Hd) as [-> | [-> | [-> | ->]]];
      reflexivity.
  - intros ->. now destruct self.
Qed.

(** X13: the step reward does not depend on the relationship sets; it is
    the shift bonus for every action [parse_action] accepts, and zero for
    an action that contains none of the four direction words. *)
Theorem step_reward_of_actions (self : RewardShaper)
    (prev_rels curr_rels : gset string) (action : string) :
  (forall prev_rels' curr_rels',
     RewardShaperOps.step_reward self prev_rels' curr_rels' action
     = RewardShaperOps.step_reward self prev_rels curr_rels action) /\
  (is_Some (parse_action py_float action) ->
   RewardShaperOps.step_reward self prev_rels curr_rels action
   == shift_bonus self) /\
  (Forall (fun d => PyStr.contains d action = false) shift_tokens ->
   RewardShaperOps.step_reward self prev_rels curr_rels action = 0).
Proof.
  unfold RewardShaperOps.step_reward. split; [reflexivity|split].
  - intros [[direction q] Hp].
    destruct (parsed_action_tokens _ _ _ Hp) as [_ ->]. cbn zeta. ring.
  - intros Hall. unfold any_shift_token.
    destruct (existsb _ shift_tokens) eqn:E; [|reflexivity].
    apply existsb_exists in E as (d & Hin & Hd).
    rewrite Forall_forall in Hall. apply list_elem_of_In in Hin.
    rewrite (Hall d Hin) in Hd. discriminate.
Qed.

End Dispatch.

(** X14: the final reward lies between minus the depth penalty of the
    sequence and one minus that penalty; it reaches the upper value when
    every goal relationship holds, and it does not decrease when more
    relationships hold. *)
Theorem final_reward_bounds (self : RewardShaper)
    (final_rels final_rels' : gset string) (ivs : list Intervention) :
  let penalty := depth_penalty self * Qnat (length ivs) in
  - penalty <= RewardShaperOps.final_reward self final_rels ivs
    <= 1 - penalty /\
  (goal self ⊆ final_rels ->
   RewardShaperOps.final_reward self final_rels ivs == 1 - penalty) /\
  (final_rels ⊆ final_rels' ->
   RewardShaperOps.final_reward self final_rels ivs
   <= RewardShaperOps.final_reward self final_rels' ivs).
Proof.
  cbn zeta. unfold RewardShaperOps.final_reward.
  set (pen := depth_penalty self * Qnat (length ivs)).
  destruct (size (goal self) =? 0)%nat eqn:E.
  - split; [split; lra|split; intros _; lra].
  - apply Nat.eqb_neq in E. cbn zeta.
    assert (Hpos : 0 < Qnat (size (goal self))) by (apply Qnat_pos; lia).
    assert (Hb : forall r : gset string,
               0 <= Qnat (size (r ∩ goal self)) / Qnat (size (goal self)) <= 1).
    { intros r. apply fraction_bounds; [|lia].
      apply subseteq_size. set_solver. }
    split; [|split].
    + destruct (Hb final_rels). split; lra.
    + intros Hsub.
      replace (final_rels ∩ goal self) with (goal self) by set_solver.
      assert (Qnat (size (goal self)) / Qnat (size (goal self)) == 1)
        by (field; lra).
      lra.
    + intros Hsub.
      assert (Hle : Qnat (size (final_rels ∩ goal self))
                    / Qnat (size (goal self))
                    <= Qnat (size (final_rels' ∩ goal self))
                       / Qnat (size (goal self))).
      { apply Qmult_le_compat_r.
        - unfold Qnat. rewrite <- Zle_Qle. apply inj_le.
          apply subseteq_size. set_solver.
        - apply Qlt_le_weak, Qinv_lt_0_compat, Hpos. }
      lra.
Qed.

(** ** Legal actions and the UCT choice *)

Lemma existsb_eqb_elem_of (x : string) (l : list string) :
  existsb (String.eqb x) l = true <-> x ∈ l.
Proof.
  rewrite existsb_exists. split.
  - intros (y & Hin & Heq). apply String.eqb_eq in Heq. subst y.
    now apply list_elem_of_In.
  - intros Hin. exists x. split; [now apply list_elem_of_In|].
    apply String.eqb_refl.
Qed.

Lemma elem_of_legal_actions (self : CausalMCTS) (ivs : list Intervention)
    (node : MCTSNode) (obj action : string) :
  ((obj, action) ∈ get_legal_actions self ivs node) <->
  (exists actions,
     (obj, actions) ∈ intervention_space self /\ action ∈ actions) /\
  ((obj, action) ∉ local_violations node) /\
  (obj ∈ map fst ivs -> obj = "Swap").
Proof.
  unfold get_legal_actions. rewrite list_elem_of_In, in_flat_map. split.
  - intros ([o acts] & Hin & H). apply in_flat_map in H as (a & Ha & H).
    destruct (bool_decide ((o, a) ∈ local_violations node)) eqn:Ev;
      [destruct H|].
    destruct (existsb (String.eqb o) (map fst ivs) && negb (String.eqb o "Swap"))
      eqn:E; [destruct H|].
    destruct H as [[= -> ->]|[]].
    split; [|split].
    + exists acts. split; now apply list_elem_of_In.
    + now apply bool_decide_eq_false in Ev.
    + intros Hobj. apply existsb_eqb_elem_of in Hobj. rewrite Hobj in E.
      cbn in E. apply negb_false_iff in E. now apply String.eqb_eq.
  - intros ((acts & Hin & Ha) & Hv & Hobj). exists (obj, acts).
    split; [now apply list_elem_of_In|]. apply in_flat_map. exists action.
    split; [now apply list_elem_of_In|].
    rewrite (bool_decide_eq_false_2 _ Hv).
    destruct (existsb (String.eqb obj) (map fst ivs)) eqn:E.
    + apply existsb_eqb_elem_of in E. rewrite (Hobj E). cbn. now left.
    + cbn. now left.
Qed.

(** X15: an intervention is legal exactly when the intervention space
    offers it, the node has not recorded it as a violation, and its
    object has not been intervened on already, unless that object is
    [Swap]; so a longer history or more violations never make more
    actions legal. *)
Theorem legal_actions_characterised (self : CausalMCTS)
    (ivs more : list Intervention) (node : MCTSNode)
    (vs : gset Intervention) (obj action : string) :
  (((obj, action) ∈ get_legal_actions self ivs node) <->
   (exists actions,
      (obj, actions) ∈ intervention_space self /\ action ∈ actions) /\
   ((obj, action) ∉ local_violations node) /\
   (obj ∈ map fst ivs -> obj = "Swap")) /\
  ((obj, action)
     ∈ get_legal_actions self (ivs ++ more)%list (update_violations node vs) ->
   (obj, action) ∈ get_legal_actions self ivs node).
Proof.
  split; [apply elem_of_legal_actions|].
  rewrite !elem_of_legal_actions. intros (Hs & Hv & Hobj).
  split; [exact Hs|split].
  - cbn in Hv. set_solver.
  - intros Hin. apply Hobj. rewrite map_app. apply elem_of_app. now left.
Qed.




Section BestChild.

Variable math_log : Q -> Q.
Variable math_sqrt : Q -> Q.



End BestChild.

(** X17: without a state manager [checkMisalignment] compares the initial
    positions against 0.05, as a state manager built from the initial
    state with that threshold does; but when the object or the reference
    ['0'] is missing it answers [False] where that state manager answers
    [True]. *)
Theorem checkMisalignment_without_state_manager (self : CausalMCTS)
    (obj : string) :
  let sm := StateManagerOps.init (initial_state self) 0.05 in
  (is_Some (st_objects (initial_state self) !! obj) ->
   is_Some (st_objects (initial_state self) !! "0") ->
   checkMisalignment self obj None
   = StateManagerOps.check_misalignment sm obj "0") /\
  (st_objects (initial_state self) !! obj = None \/
   st_objects (initial_state self) !! "0" = None ->
   checkMisalignment self obj None = false /\
   StateManagerOps.check_misalignment sm obj "0" = true).
Proof.
  cbn zeta. unfold checkMisalignment, StateManagerOps.check_misalignment,
    StateManagerOps.check_alignment. cbn [objects StateManagerOps.init
    alignment_threshold].
  split.
  - intros [p ->] [p0 ->]. reflexivity.
  - intros [-> | ->]; [now split|].
    destruct (st_objects (initial_state self) !! obj); now split.
Qed.

(** ** Rollouts *)

Lemma random_choice_elem {A : Type} (rng : RandomState) (d : A) (l : list A) :
  l <> [] -> (random_choice rng d l).1 ∈ l.
Proof.
  intros Hl. unfold random_choice. cbn [fst]. apply list_elem_of_In, nth_In.
  apply Nat.mod_upper_bound. destruct l; [contradiction|discriminate].
Qed.

Section RolloutHistory.

Variable py_float : string -> option Q.

Lemma rollout_suffix_history (self : CausalMCTS) (node : MCTSNode)
    (budget : nat) :
  forall (acc : InterventionApplier * gset string * Q)
         (h : list Intervention) (rng : RandomState),
    let res := rollout_suffix py_float self node budget acc h rng in
    exists added,
      res.1.2 = (h ++ added)%list /\
      (length added <= budget)%nat /\
      cursor res.2 = (cursor rng + length added)%nat /\
      draws res.2 = draws rng /\
      (forall k a, added !! k = Some a ->
         a ∈ get_legal_actions self (h ++ take k added)%list node) /\
      ((length added < budget)%nat ->
       get_legal_actions self (h ++ added)%list node = []).
Proof.
  induction budget as [|budget IH]; intros acc h rng; cbn zeta.
  - exists []. cbn. rewrite app_nil_r, Nat.add_0_r.
    repeat split; try lia. intros k a Hk. inversion Hk.
  - cbn [rollout_suffix].
    destruct (get_legal_actions self h node) as [|d l] eqn:E.
    + exists []. cbn. rewrite app_nil_r, Nat.add_0_r.
      repeat split; try lia; [|now intros _]. intros k a Hk. inversion Hk.
    + pose proof (random_choice_elem rng d (d :: l)) as Hin.
      destruct (random_choice rng d (d :: l)) as [choice rng'] eqn:Ec.
      assert (Hc : cursor rng' = S (cursor rng) /\ draws rng' = draws rng)
        by (unfold random_choice in Ec; injection Ec as _ <-; now split).
      destruct Hc as [Hcur Hdr]. cbn [fst] in Hin.
      specialize (Hin ltac:(discriminate)).
      destruct (IH (rollout_step py_float self acc choice)
                   (h ++ [choice])%list rng')
        as (added & Hh & Hlen & Hcu & Hd & Hleg & Hstop).
      cbv beta iota. exists (choice :: added).
      rewrite Hh, Hcu, Hd, Hcur, Hdr.
      rewrite <- !app_assoc. cbn [app length].
      split; [reflexivity|]. split; [lia|]. split; [lia|].
      split; [reflexivity|]. split.
      * intros [|k] a Hk.
        -- cbn in Hk. injection Hk as <-. cbn. rewrite app_nil_r, E.
           exact Hin.
        -- cbn in Hk. cbn [take]. specialize (Hleg k a Hk).
           now rewrite <- app_assoc in Hleg.
      * intros Hlt. rewrite <- app_assoc in Hstop. apply Hstop. lia.
Qed.

Lemma rollout_run_spec (self : CausalMCTS) (node : MCTSNode)
    (rng : RandomState) :
  let res := rollout py_float self node rng in
  exists added,
    reward_history res.1.2
    = (reward_history self
       ++ [((interventions node ++ added)%list, res.1.1)])%list /\
    intervention_trace res.1.2 = intervention_trace self /\
    (Z.of_nat (length added)
     <= Z.max 0 (max_rollout_depth self
                 - Z.of_nat (length (interventions node))))%Z /\
    cursor res.2 = (cursor rng + length added)%nat /\
    draws res.2 = draws rng /\
    (forall k a, added !! k = Some a ->
       a ∈ get_legal_actions self (interventions node ++ take k added)%list
             node).
Proof.
  cbn zeta. unfold rollout, rollout_run.
  destruct (fold_left _ (interventions node) _) as [[applier prev] sr].
  cbn zeta. destruct (Qle_bool _ _).
  - exists []. cbn. rewrite app_nil_r, Nat.add_0_r.
    repeat split; try lia. intros k a Hk. inversion Hk.
  - match goal with
    | |- context [rollout_suffix py_float self node ?b ?acc ?h rng] =>
        destruct (rollout_suffix_history self node b acc h rng)
          as (added & Hh & Hlen & Hcu & Hd & Hleg & _);
        destruct (rollout_suffix py_float self node b acc h rng)
          as [[[[applier' prev'] sr'] h'] rng'] eqn:Es
    end.
    cbn in Hh, Hcu, Hd. subst h'. exists added. cbn.
    repeat split; auto. lia.
Qed.

(** X18: a rollout appends exactly one entry to the reward history, with
    the reward it returns and a sequence that extends the node's own;
    each action it adds was legal when it was chosen, and the sequence is
    no longer than the larger of the node's depth and the maximal rollout
    depth. The intervention trace is left alone. *)
Theorem rollout_history_entry (self : CausalMCTS) (node : MCTSNode)
    (rng : RandomState) :
  let res := rollout py_float self node rng in
  exists added,
    reward_history res.1.2
    = (reward_history self
       ++ [((interventions node ++ added)%list, res.1.1)])%list /\
    intervention_trace res.1.2 = intervention_trace self /\
    (Z.of_nat (length (interventions node ++ added))
     <= Z.max (Z.of_nat (length (interventions node)))
              (max_rollout_depth self))%Z /\
    (forall k a, added !! k = Some a ->
       a ∈ get_legal_actions self (interventions node ++ take k added)%list
             node).
Proof.
  cbn zeta.
  destruct (rollout_run_spec self node rng)
    as (added & Hh & Ht & Hlen & _ & _ & Hleg).
  exists added. split; [exact Hh|]. split; [exact Ht|]. split; [|exact Hleg].
  rewrite length_app. lia.
Qed.

(** X19: a rollout consumes one random draw for each action it appends to
    the node's sequence and leaves the stream of draws as it is; it draws
    nothing when the node is already as deep as the maximal rollout
    depth. *)
Theorem rollout_random_draws (self : CausalMCTS) (node : MCTSNode)
    (rng : RandomState) :
  let res := rollout py_float self node rng in
  (exists h,
     last (reward_history res.1.2) = Some (h, res.1.1) /\
     (cursor res.2 + length (interventions node))%nat
     = (cursor rng + length h)%nat) /\
  draws res.2 = draws rng /\
  ((max_rollout_depth self <= Z.of_nat (length (interventions node)))%Z ->
   res.2 = rng).
Proof.
  cbn zeta.
  destruct (rollout_run_spec self node rng)
    as (added & Hh & _ & Hlen & Hcu & Hd & _).
  split; [|split; [exact Hd|]].
  - eexists. rewrite Hh, last_snoc. split; [reflexivity|].
    rewrite length_app. lia.
  - intros Hdepth. assert (length added = 0%nat) as Hz by lia.
    rewrite Hz, Nat.add_0_r in Hcu.
    destruct (rollout py_float self node rng).2 as [dr cu], rng as [dr0 cu0].
    cbn in *. now subst.
Qed.

End RolloutHistory.

(** ** Edge cases of the search loop *)

Section SearchEdges.

Variable py_float : string -> option Q.
Variable math_log : Q -> Q.
Variable math_sqrt : Q -> Q.

Lemma no_actions_no_legal_actions (self : CausalMCTS)
    (ivs : list Intervention) (node : MCTSNode) :
  Forall (fun entry => entry.2 = []) (intervention_space self) ->
  get_legal_actions self ivs node = [].
Proof.
  unfold get_legal_actions. induction 1 as [|[obj actions] l Hx _ IH];
    [reflexivity|].
  cbn in Hx. subst actions. cbn. exact IH.
Qed.

Lemma exhausted_root_is_skipped (st : SearchState) :
  tree st = [set_untried_actions (new_node [] None) (Some [])] ->
  mcts_iteration py_float math_log math_sqrt st = Some (st, Skipped).
Proof.
  intros Ht. unfold mcts_iteration. rewrite Ht. cbn.
  destruct st as [e t r]. cbn in *. now subst t.
Qed.

Lemma exhausted_root_loop (iterations : Z) (st : SearchState) (n : nat) :
  tree st = [set_untried_actions (new_node [] None) (Some [])] ->
  forall i,
    search_loop py_float math_log math_sqrt n i iterations st
    = Some ([], iterations, st).
Proof.
  intros Ht. induction n as [|n IH]; intros i; cbn [search_loop].
  - rewrite Ht. reflexivity.
  - rewrite (exhausted_root_is_skipped st Ht). apply IH.
Qed.

(** X20: with no iteration to run, or with an intervention space that
    offers no action, the search returns the empty sequence together with
    the requested number of iterations; it performs no rollout and leaves
    the planner and the random source untouched. *)
Theorem search_without_budget_or_actions (self : CausalMCTS)
    (iterations : Z) (rng : RandomState) :
  (iterations <= 0)%Z \/
  Forall (fun entry => entry.2 = []) (intervention_space self) ->
  search_resolution py_float math_log math_sqrt self iterations rng
  = Some ([], iterations,
          {| engine := self; tree := initial_tree self;
             random_state := rng |}).
Proof.
  unfold search_resolution. intros [Hle|Hsp].
  - replace (Z.to_nat iterations) with 0%nat by lia. reflexivity.
  - apply exhausted_root_loop. cbn [tree]. unfold initial_tree.
    now rewrite (no_actions_no_legal_actions self [] _ Hsp).
Qed.

(** X21: a planner whose [solution_found] flag is already set stops at
    iteration 0 without a rollout: it returns the sequence of the last
    reward-history entry, or, when the history is empty, the first legal
    root action alone. *)
Theorem already_solved_planner_returns_at_once (self : CausalMCTS)
    (iterations : Z) (rng : RandomState) (a : Intervention)
    (rest : list Intervention) :
  solution_found self = true ->
  get_legal_actions self [] (new_node [] None) = a :: rest ->
  (0 < iterations)%Z ->
  exists st,
    search_resolution py_float math_log math_sqrt self iterations rng
    = Some (match last (reward_history self) with
            | Some entry => entry.1
            | None => [a]
            end, 0%Z, st) /\
    engine st = self /\ random_state st = rng /\
    tree st = [set_children
                 (set_untried_actions (new_node [] None) (Some rest))
                 [1%nat];
               new_node [a] (Some 0%nat)].
Proof.
  intros Hs Hl Hit. unfold search_resolution.
  destruct (Z.to_nat iterations) as [|n] eqn:En; [lia|].
  cbn [search_loop]. unfold mcts_iteration, initial_tree. cbn [engine tree].
  rewrite Hl. cbn. rewrite Hs. cbn.
  destruct (last (reward_history self)); eexists; (split; [reflexivity|]);
    cbn; auto.
Qed.

End SearchEdges.

(** ** The sequences stored in the tree *)










Section Bookkeeping.

Variable py_float : string -> option Q.
Variable math_log : Q -> Q.
Variable math_sqrt : Q -> Q.




End Bookkeeping.

Section SearchBookkeeping.

Variable py_float : string -> option Q.
Variable math_log : Q -> Q.
Variable math_sqrt : Q -> Q.



End SearchBookkeeping.


Section SearchResults.

Variable py_float : string -> option Q.
Variable math_log : Q -> Q.
Variable math_sqrt : Q -> Q.




End SearchResults.


(** ** Backpropagation along the path to the root *)

Lemma backpropagate_step_totals (t : Tree) (i : nat) (reward : Q) :
  (i < length t)%nat ->
  let n := record_visit (node_at t i) reward in
  let t1 := <[i := n]> t in
  let t2 := match parent n with
            | Some p =>
                <[p := update_violations (node_at t1 p) (local_violations n)]> t1
            | None => t1
            end in
  total_reward (node_at t2 i) = total_reward (node_at t i) + reward /\
  forall j, j <> i -> total_reward (node_at t2 j) = total_reward (node_at t j).
Proof.
  intros Hi n t1 t2.
  assert (H1 : node_at t1 i = n) by (now apply node_at_insert_eq).
  assert (H2 : forall j, j <> i -> node_at t1 j = node_at t j)
    by (intros j Hj; now apply node_at_insert_ne).
  unfold t2. destruct (parent n) as [p|].
  - split.
    + destruct (node_at_insert_cases t1 p i
                  (update_violations (node_at t1 p) (local_violations n)))
        as [[<- ->]| ->]; rewrite H1; reflexivity.
    + intros j Hj.
      destruct (node_at_insert_cases t1 p j
                  (update_violations (node_at t1 p) (local_violations n)))
        as [[<- ->]| ->]; cbn [total_reward update_violations];
        now rewrite H2.
  - split; [now rewrite H1|]. intros j Hj. now rewrite H2.
Qed.

Lemma path_to_root_shape_eq (t t' : Tree) (fuel : nat) :
  shape_eq t t' ->
  forall i, path_to_root fuel t' i = path_to_root fuel t i.
Proof.
  intros [_ Hs]. induction fuel as [|fuel IH]; intros i; [reflexivity|].
  cbn. destruct (Hs i) as (_ & -> & _).
  destruct (parent (node_at t i)); now rewrite ?IH.
Qed.

Lemma path_to_root_le (t : Tree) (fuel : nat) :
  wf_tree t ->
  forall i k, k ∈ path_to_root fuel t i -> (k <= i)%nat.
Proof.
  intros Hwf. induction fuel as [|fuel IH]; intros i k; cbn.
  - intros H. inversion H.
  - rewrite elem_of_cons. intros [->|H]; [lia|].
    destruct (parent (node_at t i)) as [p|] eqn:Hp; [|inversion H].
    apply IH in H. pose proof (wf_parent_lt t Hwf i p Hp). lia.
Qed.

Lemma backpropagate_loop_path (reward : Q) (fuel : nat) :
  forall (self : CausalMCTS) (t : Tree) (i : nat),
    wf_tree t -> (i < length t)%nat -> (i < fuel)%nat ->
    exists self' t',
      backpropagate_loop fuel self t (Some i) reward = Some (self', t') /\
      (forall k, k ∈ path_to_root fuel t i ->
         visits (node_at t' k) = S (visits (node_at t k)) /\
         total_reward (node_at t' k) = total_reward (node_at t k) + reward) /\
      (forall k, k ∉ path_to_root fuel t i ->
         visits (node_at t' k) = visits (node_at t k) /\
         total_reward (node_at t' k) = total_reward (node_at t k)) /\
      length (intervention_trace self')
      = (length (intervention_trace self) + length (path_to_root fuel t i))%nat
      /\ last (path_to_root fuel t i) = Some 0%nat.
Proof.
  induction fuel as [|fuel IH]; intros self t i Hwf Hi Hfuel; [lia|].
  cbn [backpropagate_loop path_to_root].
  destruct (backpropagate_step t i reward Hi) as (Hs & Hvi & Hvo).
  destruct (backpropagate_step_totals t i reward Hi) as (Hti & Hto).
  cbn zeta in Hs, Hvi, Hvo, Hti, Hto.
  set (n := record_visit (node_at t i) reward) in *.
  set (t2 := match parent n with
             | Some p => _
             | None => <[i := n]> t
             end) in *.
  pose proof (wf_tree_shape_eq _ _ Hs Hwf) as Hwf2.
  change (parent n) with (parent (node_at t i)) in *.
  destruct (parent (node_at t i)) as [p|] eqn:Hp.
  - pose proof (wf_parent_lt t Hwf i p Hp) as Hlt.
    destruct (IH (append_intervention_trace self
                    (interventions n, visits n,
                     total_reward n / Qnat (visits n), reward)) t2 p)
      as (self' & t' & Hrun & Hin & Hout & Htr & Hlast);
      [exact Hwf2|destruct Hs as [-> _]; lia|lia|].
    rewrite (path_to_root_shape_eq t t2 fuel Hs) in Hin, Hout, Htr, Hlast.
    exists self', t'. split; [exact Hrun|].
    assert (Hnot : i ∉ path_to_root fuel t p).
    { intros H. apply (path_to_root_le t fuel Hwf) in H. lia. }
    split; [|split; [|split]].
    + intros k Hk. apply elem_of_cons in Hk as [->|Hk].
      * destruct (Hout i Hnot) as [-> ->]. auto.
      * assert (k <> i) by (intros ->; contradiction).
        destruct (Hin k Hk) as [-> ->]. rewrite Hvo, Hto by assumption. auto.
    + intros k Hk. apply not_elem_of_cons in Hk as [Hki Hk].
      destruct (Hout k Hk) as [-> ->]. rewrite Hvo, Hto by assumption. auto.
    + rewrite Htr. cbn. rewrite length_app. cbn. lia.
    + destruct (path_to_root fuel t p) as [|q l] eqn:E;
        [discriminate|exact Hlast].
  - assert (i = 0%nat) as ->.
    { destruct (decide (i = 0%nat)) as [|Hne]; [assumption|].
      destruct (wf_parent_some t Hwf i) as (p & Hp' & _); [lia|congruence]. }
    destruct fuel; cbn [backpropagate_loop];
      (eexists; eexists; split; [reflexivity|]);
      (split; [|split; [|split]]).
    all: try (intros k Hk; apply list_elem_of_singleton in Hk as ->; auto).
    all: try (intros k Hk; apply not_elem_of_cons in Hk as [Hk _]; auto).
    all: try (cbn; rewrite length_app; cbn; lia).
    all: reflexivity.
Qed.

(** X26: backpropagation from a node adds one visit and the reward to
    that node and to each of its ancestors, the root included, and to no
    other node; it appends one trace entry per node on that path. *)
Theorem backpropagate_updates_path (self : CausalMCTS) (t : Tree) (i : nat)
    (reward : Q) :
  wf_tree t -> (i < length t)%nat ->
  exists self' t',
    backpropagate self t i reward = Some (self', t') /\
    (forall k, k ∈ path_to_root (length t) t i ->
       visits (node_at t' k) = S (visits (node_at t k)) /\
       total_reward (node_at t' k) = total_reward (node_at t k) + reward) /\
    (forall k, k ∉ path_to_root (length t) t i ->
       visits (node_at t' k) = visits (node_at t k) /\
       total_reward (node_at t' k) = total_reward (node_at t k)) /\
    length (intervention_trace self')
    = (length (intervention_trace self)
       + length (path_to_root (length t) t i))%nat /\
    last (path_to_root (length t) t i) = Some 0%nat.
Proof.
  intros Hwf Hi. unfold backpropagate.
  exact (backpropagate_loop_path reward (length t) self t i Hwf Hi Hi).
Qed.

(** ** Selection and expansion *)


(** X28: [expand] initialises the node's untried actions when they are
    not yet set; with nothing left to try it returns the node itself and
    adds no node; otherwise it removes the first untried action, appends
    one fresh child whose sequence is the node's followed by that action,
    and leaves every other node as it was. *)
Theorem expand_takes_first_untried (self : CausalMCTS) (t : Tree)
    (node : nat) :
  (node < length t)%nat ->
  let n := node_at t node in
  let untried :=
    match untried_actions n with
    | Some l => l
    | None => get_legal_actions self (interventions n) n
    end in
  let t' := (expand self t node).1 in
  match untried with
  | [] =>
      (expand self t node).2 = node /\ length t' = length t /\
      untried_actions (node_at t' node) = Some []
  | action :: rest =>
      (expand self t node).2 = length t /\ length t' = S (length t) /\
      node_at t' (length t)
      = new_node (interventions n ++ [action])%list (Some node) /\
      untried_actions (node_at t' node) = Some rest /\
      children (node_at t' node) = (children n ++ [length t])%list /\
      forall i, i <> node -> (i < length t)%nat -> node_at t' i = node_at t i
  end.
Proof.
  intros Hnode. cbn zeta. unfold expand.
  set (t1 := match untried_actions (node_at t node) with
             | Some _ => t
             | None => _
             end).
  assert (Hlen1 : length t1 = length t).
  { unfold t1. destruct (untried_actions (node_at t node));
      [reflexivity|apply length_insert]. }
  assert (Hnode1 : (node < length t1)%nat) by lia.
  assert (Hn1 : interventions (node_at t1 node)
                = interventions (node_at t node) /\
                children (node_at t1 node) = children (node_at t node) /\
                untried_actions (node_at t1 node)
                = Some match untried_actions (node_at t node) with
                       | Some l => l
                       | None =>
                           get_legal_actions self
                             (interventions (node_at t node)) (node_at t node)
                       end).
  { unfold t1. destruct (untried_actions (node_at t node)) eqn:Hu;
      [auto|]. rewrite node_at_insert_eq by exact Hnode. auto. }
  assert (Hother : forall i, i <> node -> node_at t1 i = node_at t i).
  { intros i Hi. unfold t1. destruct (untried_actions (node_at t node));
      [reflexivity|now apply node_at_insert_ne]. }
  destruct Hn1 as (Hi1 & Hc1 & Hu1). cbn zeta. rewrite Hu1.
  destruct (match untried_actions (node_at t node) with
            | Some l => l
            | None => _
            end) as [|action rest]; cbn [fst snd].
  - auto.
  - split; [exact Hlen1|].
    split; [rewrite (add_child_length t1 node (Some rest) action); lia|].
    split; [rewrite <- Hlen1, (add_child_at_new t1 node (Some rest) action),
              Hi1; reflexivity|].
    split; [rewrite (add_child_at_node t1 node (Some rest) action Hnode1);
            reflexivity|].
    split; [rewrite (add_child_at_node t1 node (Some rest) action Hnode1);
            cbn; rewrite Hc1, Hlen1; reflexivity|].
    intros i Hi Hlt.
    rewrite (add_child_at_other t1 node (Some rest) action Hnode1 i)
      by lia.
    now apply Hother.
Qed.

(** ** The alignment bonus of a rollout *)

(** X29: the alignment bonus of a rollout is the same in the branch that
    prints the debugging lines (prefixes of at most one intervention) and
    in the other one, so it does not depend on the prefix length; it lies
    between 0 and 1. *)
Theorem misalignment_bonus_ignores_depth (state_mgr : StateManager)
    (prefix_len prefix_len' : nat) :
  misalignment_bonus state_mgr prefix_len
  = misalignment_bonus state_mgr prefix_len' /\
  0 <= misalignment_bonus state_mgr prefix_len <= 1.
Proof.
  assert (Hstep : forall bonus obj,
            match StateManagerOps.get_position state_mgr obj,
                  StateManagerOps.get_position state_mgr "0" with
            | Some _, Some _ =>
                if negb (StateManagerOps.check_misalignment state_mgr obj "0")
                then bonus + 0.25 else bonus
            | _, _ => bonus
            end
            = if negb (StateManagerOps.check_misalignment state_mgr obj "0")
              then bonus + 0.25 else bonus).
  { intros bonus obj.
    unfold StateManagerOps.get_position, StateManagerOps.check_misalignment,
      StateManagerOps.check_alignment.
    destruct (objects state_mgr !! obj); [|reflexivity].
    destruct (objects state_mgr !! "0"); reflexivity. }
  assert (Hsame : forall k,
            misalignment_bonus state_mgr k
            = fold_left
                (fun bonus obj =>
                   if negb (StateManagerOps.check_misalignment state_mgr obj
                              "0")
                   then bonus + 0.25 else bonus)
                tracked_objects 0.0).
  { intros k. unfold misalignment_bonus. destruct (k <=? 1)%nat;
      [|reflexivity].
    unfold tracked_objects. cbn [fold_left]. now rewrite !Hstep. }
  split; [now rewrite (Hsame prefix_len), (Hsame prefix_len')|].
  rewrite Hsame. unfold tracked_objects. cbn [fold_left].
  destruct (negb (StateManagerOps.check_misalignment state_mgr "1" "0"));
    destruct (negb (StateManagerOps.check_misalignment state_mgr "2" "0"));
    destruct (negb (StateManagerOps.check_misalignment state_mgr "3" "0"));
    destruct (negb (StateManagerOps.check_misalignment state_mgr "4" "0"));
    split; lra.
Qed.

(** ** The further properties at concrete inputs *)

Lemma parse_action_round_trip_witness :
  "left" ∈ valid_directions /\
  PyStr.no_char PyStr.comma " 0.01" /\
  Decimal.float (PyStr.strip " 0.01") = Some 0.01 /\
  parse_action Decimal.float ("left" ++ "," ++ " 0.01") = Some ("left", 0.01).
Proof.
  assert (Hd : "left" ∈ valid_directions) by (now left).
  assert (Hm : PyStr.no_char PyStr.comma " 0.01")
    by (cbn; repeat split; discriminate).
  assert (Hq : Decimal.float (PyStr.strip " 0.01") = Some 0.01)
    by (vm_compute; reflexivity).
  split; [exact Hd|]. split; [exact Hm|]. split; [exact Hq|].
  exact (parse_action_round_trip Decimal.float "left" " 0.01" 0.01 Hd Hm Hq).
Defined.

Lemma parse_action_sound_witness :
  parse_action Decimal.float " right ,0.01" = Some ("right", 0.01) /\
  "right" ∈ valid_directions /\
  exists part0 part1,
    PyStr.split PyStr.comma " right ,0.01" = [part0; part1] /\
    PyStr.strip part0 = "right" /\
    Decimal.float (PyStr.strip part1) = Some 0.01.
Proof.
  assert (Hp : parse_action Decimal.float " right ,0.01"
               = Some ("right", 0.01)) by (vm_compute; reflexivity).
  split; [exact Hp|].
  exact (parse_action_sound Decimal.float " right ,0.01" "right" 0.01 Hp).
Defined.

Lemma apply_failure_changes_nothing_witness :
  (apply Decimal.float scenario_applier "1" "left,abc").1.2.1 = false /\
  (apply Decimal.float scenario_applier "1" "left,abc").1.1
  = scenario_applier /\
  (apply Decimal.float scenario_applier "1" "left,abc").1.2.2 = 0.
Proof.
  assert (Hf : (apply Decimal.float scenario_applier "1" "left,abc").1.2.1
               = false) by (vm_compute; reflexivity).
  split; [exact Hf|].
  exact (apply_failure_changes_nothing Decimal.float scenario_applier "1"
           "left,abc" Hf).
Defined.

Lemma apply_success_is_a_shift_witness :
  (apply Decimal.float scenario_applier "1" "left,0.01").1.2.1 = true /\
  exists direction magnitude,
    parse_action Decimal.float "left,0.01" = Some (direction, magnitude) /\
    is_Some (objects (state_manager scenario_applier) !! "1") /\
    apply Decimal.float scenario_applier "1" "left,0.01"
    = ({| state_manager :=
            (StateManagerOps.apply_shift (state_manager scenario_applier) "1"
               direction magnitude).1.1;
          shift_reward := shift_reward scenario_applier |},
       (true, shift_reward scenario_applier), []).
Proof.
  assert (Hs : (apply Decimal.float scenario_applier "1" "left,0.01").1.2.1
               = true) by (vm_compute; reflexivity).
  split; [exact Hs|].
  exact (apply_success_is_a_shift Decimal.float scenario_applier "1"
           "left,0.01" Hs).
Defined.

Lemma shifts_of_different_objects_commute_witness :
  "1" <> "0" /\
  (StateManagerOps.apply_shift
     (StateManagerOps.apply_shift scenario_state_manager "1" "left" 0.01).1.1
     "0" "forward" 0.02).1.1
  = (StateManagerOps.apply_shift
       (StateManagerOps.apply_shift scenario_state_manager "0" "forward"
          0.02).1.1
       "1" "left" 0.01).1.1.
Proof.
  assert (Hne : "1" <> "0") by discriminate.
  split; [exact Hne|].
  exact (shifts_of_different_objects_commute scenario_state_manager
           "1" "left" "0" "forward" 0.01 0.02 Hne).
Defined.

Lemma parsed_action_applies_as_shift_witness :
  parse_action Decimal.float "left,0.01" = Some ("left", 0.01) /\
  is_Some (objects (state_manager scenario_applier) !! "1") /\
  (apply Decimal.float scenario_applier "1" "left,0.01").1
  = ({| state_manager :=
          (StateManagerOps.apply_shift (state_manager scenario_applier) "1"
             "left" 0.01).1.1;
        shift_reward := shift_reward scenario_applier |},
     (true, shift_reward scenario_applier)) /\
  objects (state_manager scenario_applier) !! "9" = None /\
  (apply Decimal.float scenario_applier "9" "left,0.01").1
  = (scenario_applier, (false, 0)).
Proof.
  assert (Hp : parse_action Decimal.float "left,0.01" = Some ("left", 0.01))
    by (vm_compute; reflexivity).
  assert (H1 : is_Some (objects (state_manager scenario_applier) !! "1"))
    by (eexists; vm_compute; reflexivity).
  assert (H9 : objects (state_manager scenario_applier) !! "9" = None)
    by (vm_compute; reflexivity).
  split; [exact Hp|]. split; [exact H1|].
  split; [|split; [exact H9|]].
  - exact (proj1 (parsed_action_applies_as_shift Decimal.float
                    scenario_applier "1" "left,0.01" "left" 0.01 Hp) H1).
  - exact (proj2 (parsed_action_applies_as_shift Decimal.float
                    scenario_applier "9" "left,0.01" "left" 0.01 Hp) H9).
Defined.

Lemma search_without_budget_or_actions_witness :
  (0 <= 0)%Z /\
  search_resolution Decimal.float (fun _ => 0) (fun _ => 0) scenario_planner
    0 Scenario8.rng0
  = Some ([], 0%Z,
          {| engine := scenario_planner;
             tree := initial_tree scenario_planner;
             random_state := Scenario8.rng0 |}).
Proof.
  assert (H0 : (0 <= 0)%Z) by lia.
  split; [exact H0|].
  exact (search_without_budget_or_actions Decimal.float (fun _ => 0)
           (fun _ => 0) scenario_planner 0 Scenario8.rng0 (or_introl H0)).
Defined.

Lemma already_solved_planner_returns_at_once_witness :
  solution_found solved_planner = true /\
  get_legal_actions solved_planner [] (new_node [] None)
  = [("1", "left,0.01"); ("1", "right,0.01")] /\
  (0 < 10)%Z /\
  exists st,
    search_resolution Decimal.float (fun _ => 0) (fun _ => 0) solved_planner
      10 Scenario8.rng0
    = Some (match last (reward_history solved_planner) with
            | Some entry => entry.1
            | None => [("1", "left,0.01")]
            end, 0%Z, st) /\
    engine st = solved_planner /\ random_state st = Scenario8.rng0 /\
    tree st = [set_children
                 (set_untried_actions (new_node [] None)
                    (Some [("1", "right,0.01")]))
                 [1%nat];
               new_node [("1", "left,0.01")] (Some 0%nat)].
Proof.
  assert (Hs : solution_found solved_planner = true) by reflexivity.
  assert (Hl : get_legal_actions solved_planner [] (new_node [] None)
               = [("1", "left,0.01"); ("1", "right,0.01")])
    by (vm_compute; reflexivity).
  assert (Hi : (0 < 10)%Z) by lia.
  split; [exact Hs|]. split; [exact Hl|]. split; [exact Hi|].
  exact (already_solved_planner_returns_at_once Decimal.float (fun _ => 0)
           (fun _ => 0) solved_planner 10 Scenario8.rng0 _ _ Hs Hl Hi).
Defined.





Lemma backpropagate_updates_path_witness :
  wf_tree expanded_scenario_tree /\
  (1 < length expanded_scenario_tree)%nat /\
  path_to_root (length expanded_scenario_tree) expanded_scenario_tree 1
  = [1%nat; 0%nat] /\
  exists self' t',
    backpropagate scenario_planner expanded_scenario_tree 1 1
    = Some (self', t') /\
    (forall k, k ∈ [1%nat; 0%nat] ->
       visits (node_at t' k) = S (visits (node_at expanded_scenario_tree k)) /\
       total_reward (node_at t' k)
       = total_reward (node_at expanded_scenario_tree k) + 1) /\
    (forall k, k ∉ [1%nat; 0%nat] ->
       visits (node_at t' k) = visits (node_at expanded_scenario_tree k) /\
       total_reward (node_at t' k)
       = total_reward (node_at expanded_scenario_tree k)) /\
    length (intervention_trace self')
    = (length (intervention_trace scenario_planner) + 2)%nat /\
    last [1%nat; 0%nat] = Some 0%nat.
Proof.
  assert (Hwf : wf_tree expanded_scenario_tree).
  { apply (expand_spec scenario_planner (initial_tree scenario_planner) 0).
    - apply initial_tree_wf.
    - cbn. lia. }
  assert (Hlt : (1 < length expanded_scenario_tree)%nat)
    by (vm_compute; lia).
  split; [exact Hwf|]. split; [exact Hlt|]. split; [reflexivity|].
  exact (backpropagate_updates_path scenario_planner expanded_scenario_tree 1
           1 Hwf Hlt).
Defined.


Lemma expand_takes_first_untried_witness :
  (0 < length (initial_tree scenario_planner))%nat /\
  (expand scenario_planner (initial_tree scenario_planner) 0).2 = 1%nat /\
  length expanded_scenario_tree = 2%nat /\
  node_at expanded_scenario_tree 1
  = new_node [("1", "left,0.01")] (Some 0%nat) /\
  untried_actions (node_at expanded_scenario_tree 0)
  = Some [("1", "right,0.01")] /\
  children (node_at expanded_scenario_tree 0) = [1%nat] /\
  forall i, i <> 0%nat -> (i < 1)%nat ->
    node_at expanded_scenario_tree i
    = node_at (initial_tree scenario_planner) i.
Proof.
  assert (H0 : (0 < length (initial_tree scenario_planner))%nat)
    by (cbn; lia).
  split; [exact H0|].
  exact (expand_takes_first_untried scenario_planner
           (initial_tree scenario_planner) 0 H0).
Defined.

Lemma apply_shift_keeps_object_set_witness :
  (StateManagerOps.apply_shift scenario_state_manager "1" "left" 0.01).1.2
  = true /\
  "1" ∈ intervened_objects
          (StateManagerOps.apply_shift scenario_state_manager "1" "left"
             0.01).1.1 /\
  dom (objects
         (StateManagerOps.apply_shift scenario_state_manager "1" "left"
            0.01).1.1)
  = dom (objects scenario_state_manager).
Proof.
  assert (Hs : (StateManagerOps.apply_shift scenario_state_manager "1" "left"
                  0.01).1.2 = true) by reflexivity.
  destruct (apply_shift_keeps_object_set scenario_state_manager "1" "left"
              0.01) as (Hdom & _ & Hin).
  split; [exact Hs|]. split; [exact (Hin Hs)|exact Hdom].
Defined.

Lemma check_alignment_symmetric_witness :
  objects scenario_state_manager !! "9" = None /\
  StateManagerOps.check_misalignment scenario_state_manager "9" "0" = true /\
  StateManagerOps.check_misalignment scenario_state_manager "0" "9" = true /\
  StateManagerOps.check_alignment scenario_state_manager "1" "0"
  = StateManagerOps.check_alignment scenario_state_manager "0" "1".
Proof.
  assert (H9 : objects scenario_state_manager !! "9" = None)
    by (vm_compute; reflexivity).
  split; [exact H9|].
  destruct (check_alignment_symmetric scenario_state_manager "9" "0")
    as (_ & Ha & _).
  destruct (check_alignment_symmetric scenario_state_manager "0" "9")
    as (_ & _ & Hb).
  destruct (check_alignment_symmetric scenario_state_manager "1" "0")
    as (Hsym & _).
  split; [exact (Ha H9)|]. split; [exact (Hb H9)|exact Hsym].
Defined.

Lemma critical_relationships_are_declared_on_witness :
  PyStr.isdigit "1" = true /\ PyStr.isdigit "0" = true /\
  "On(" ++ "1" ++ "," ++ "0" ++ ")" ∈ relationships scenario_state_manager /\
  "On(" ++ "1" ++ "," ++ "0" ++ ")"
    ∈ StateManagerOps.get_critical_relationships scenario_state_manager.
Proof.
  assert (Hin : "On(" ++ "1" ++ "," ++ "0" ++ ")"
                ∈ relationships scenario_state_manager)
    by (apply elem_of_list_to_set; left).
  split; [reflexivity|]. split; [reflexivity|]. split; [exact Hin|].
  destruct (critical_relationships_are_declared_on scenario_state_manager)
    as (_ & _ & H).
  apply (H "1" "0"); try reflexivity; try exact Hin;
    cbn; (split; [discriminate|exact I]).
Defined.

Lemma displacement_of_unmoved_objects_witness :
  objects scenario_state_manager !! "9" = None /\
  StateManagerOps.compute_displacement (fun _ => 0) scenario_state_manager "9"
  = 0.0 /\
  is_Some (initial_objects scenario_state_manager !! "1") /\
  exists arg,
    StateManagerOps.compute_displacement (fun _ => 0)
      (StateManagerOps.reset_to_initial scenario_state_manager) "1"
    = (fun _ => 0) arg /\ arg == 0.
Proof.
  assert (H9 : objects scenario_state_manager !! "9" = None)
    by (vm_compute; reflexivity).
  assert (H1 : is_Some (initial_objects scenario_state_manager !! "1"))
    by (eexists; vm_compute; reflexivity).
  destruct (displacement_of_unmoved_objects (fun _ => 0)
              scenario_state_manager "9") as (Ha & _).
  destruct (displacement_of_unmoved_objects (fun _ => 0)
              scenario_state_manager "1") as (_ & Hb).
  split; [exact H9|]. split; [exact (Ha H9)|]. split; [exact H1|exact (Hb H1)].
Defined.

Lemma step_reward_of_actions_witness :
  is_Some (parse_action Decimal.float "left,0.01") /\
  RewardShaperOps.step_reward scenario_shaper ∅ ∅ "left,0.01"
  == shift_bonus scenario_shaper /\
  Forall (fun d => PyStr.contains d "pick-top" = false) shift_tokens /\
  RewardShaperOps.step_reward scenario_shaper ∅ ∅ "pick-top" = 0.
Proof.
  assert (Hp : is_Some (parse_action Decimal.float "left,0.01"))
    by (eexists; vm_compute; reflexivity).
  assert (Hn : Forall (fun d => PyStr.contains d "pick-top" = false)
                 shift_tokens)
    by (repeat constructor).
  destruct (step_reward_of_actions Decimal.float scenario_shaper ∅ ∅
              "left,0.01") as (_ & Ha & _).
  destruct (step_reward_of_actions Decimal.float scenario_shaper ∅ ∅
              "pick-top") as (_ & _ & Hb).
  split; [exact Hp|]. split; [exact (Ha Hp)|]. split; [exact Hn|exact (Hb Hn)].
Defined.

Lemma final_reward_bounds_witness :
  goal scenario_shaper ⊆ Scenario8.goal_set /\
  RewardShaperOps.final_reward scenario_shaper Scenario8.goal_set
    [("1", "left,0.01")]
  == 1 - depth_penalty scenario_shaper * Qnat 1 /\
  (∅ : gset string) ⊆ Scenario8.goal_set /\
  RewardShaperOps.final_reward scenario_shaper ∅ [("1", "left,0.01")]
  <= RewardShaperOps.final_reward scenario_shaper Scenario8.goal_set
       [("1", "left,0.01")].
Proof.
  assert (Hg : goal scenario_shaper ⊆ Scenario8.goal_set) by reflexivity.
  assert (He : (∅ : gset string) ⊆ Scenario8.goal_set)
    by apply empty_subseteq.
  destruct (final_reward_bounds scenario_shaper Scenario8.goal_set
              Scenario8.goal_set [("1", "left,0.01")]) as (_ & Ha & _).
  destruct (final_reward_bounds scenario_shaper ∅ Scenario8.goal_set
              [("1", "left,0.01")]) as (_ & _ & Hb).
  split; [exact Hg|]. split; [exact (Ha Hg)|]. split; [exact He|exact (Hb He)].
Defined.


Lemma checkMisalignment_without_state_manager_witness :
  is_Some (st_objects (initial_state scenario_planner) !! "1") /\
  is_Some (st_objects (initial_state scenario_planner) !! "0") /\
  checkMisalignment scenario_planner "1" None
  = StateManagerOps.check_misalignment
      (StateManagerOps.init (initial_state scenario_planner) 0.05) "1" "0" /\
  st_objects (initial_state scenario_planner) !! "9" = None /\
  checkMisalignment scenario_planner "9" None = false /\
  StateManagerOps.check_misalignment
    (StateManagerOps.init (initial_state scenario_planner) 0.05) "9" "0"
  = true.
Proof.
  assert (H1 : is_Some (st_objects (initial_state scenario_planner) !! "1"))
    by (eexists; vm_compute; reflexivity).
  assert (H0 : is_Some (st_objects (initial_state scenario_planner) !! "0"))
    by (eexists; vm_compute; reflexivity).
  assert (H9 : st_objects (initial_state scenario_planner) !! "9" = None)
    by (vm_compute; reflexivity).
  destruct (checkMisalignment_without_state_manager scenario_planner "1")
    as (Ha & _).
  destruct (checkMisalignment_without_state_manager scenario_planner "9")
    as (_ & Hb).
  split; [exact H1|]. split; [exact H0|]. split; [exact (Ha H1 H0)|].
  split; [exact H9|]. exact (Hb (or_introl H9)).
Defined.

Lemma rollout_random_draws_witness :
  (max_rollout_depth (Scenario8.planner 0 1 0)
   <= Z.of_nat (length (interventions
                          (new_node [("1", "left,0.01")] (Some 0%nat)))))%Z /\
  (rollout Decimal.float (Scenario8.planner 0 1 0)
     (new_node [("1", "left,0.01")] (Some 0%nat)) Scenario8.rng0).2
  = Scenario8.rng0.
Proof.
  assert (Hd : (max_rollout_depth (Scenario8.planner 0 1 0)
                <= Z.of_nat (length (interventions
                     (new_node [("1", "left,0.01")] (Some 0%nat)))))%Z)
    by (cbn; lia).
  destruct (rollout_random_draws Decimal.float (Scenario8.planner 0 1 0)
              (new_node [("1", "left,0.01")] (Some 0%nat)) Scenario8.rng0)
    as (_ & _ & H).
  split; [exact Hd|exact (H Hd)].
Defined.
